(** * The OAuth authorization endpoint of the MCP Python SDK

    A shallow embedding of [src/mcp/server/auth/handlers/authorize.py]:
    the request schema [AuthorizationRequest], the handler
    [AuthorizationHandler.handle] with its nested error router
    [error_response], and the redirect composer [create_error_redirect].

    Python strings are [string]s (sequences of 8-bit characters, read as the
    UTF-8 bytes of the text).  Exceptions and the handler's [nonlocal]
    variables are threaded through a small state-and-exception monad in
    which the state written before a [raise] survives the exception, as it
    does in Python. *)

From Stdlib Require Import String Ascii List Bool Arith.
Import ListNotations.
Local Open Scope list_scope.
Local Open Scope string_scope.

Set Implicit Arguments.

(* ===================================================================== *)
(** * String helpers used by the [urllib.parse] model *)
(* ===================================================================== *)

Module Str.

(** [c in s] *)
Fixpoint mem (c : ascii) (s : string) : bool :=
  match s with
  | EmptyString => false
  | String a rest => Ascii.eqb a c || mem c rest
  end.

(** [s.split(c, 1)] when [c in s]: the text before the first [c] and the
    text after it. *)
Fixpoint split_first (c : ascii) (s : string) : option (string * string) :=
  match s with
  | EmptyString => None
  | String a rest =>
      if Ascii.eqb a c then Some (EmptyString, rest)
      else match split_first c rest with
           | Some (l, r) => Some (String a l, r)
           | None => None
           end
  end.

(** The longest prefix without a character of [delims], and the rest
    (which starts at the first delimiter, if any). *)
Fixpoint span_until (delims : string) (s : string) : string * string :=
  match s with
  | EmptyString => (EmptyString, EmptyString)
  | String a rest =>
      if mem a delims then (EmptyString, s)
      else let (l, r) := span_until delims rest in (String a l, r)
  end.

Fixpoint forallb (p : ascii -> bool) (s : string) : bool :=
  match s with
  | EmptyString => true
  | String a rest => p a && forallb p rest
  end.

Fixpoint map (f : ascii -> ascii) (s : string) : string :=
  match s with
  | EmptyString => EmptyString
  | String a rest => String (f a) (map f rest)
  end.

Definition is_empty (s : string) : bool :=
  match s with EmptyString => true | _ => false end.

Definition in_range (lo hi : nat) (c : ascii) : bool :=
  Nat.leb lo (nat_of_ascii c) && Nat.leb (nat_of_ascii c) hi.

Definition is_upper := in_range 65 90.
Definition is_lower := in_range 97 122.
Definition is_digit := in_range 48 57.
Definition is_alpha (c : ascii) := is_upper c || is_lower c.

Definition lower_char (c : ascii) : ascii :=
  if is_upper c then ascii_of_nat (nat_of_ascii c + 32) else c.

Definition lower := map lower_char.

Fixpoint join (sep : string) (l : list string) : string :=
  match l with
  | [] => EmptyString
  | [x] => x
  | x :: rest => x ++ sep ++ join sep rest
  end.

Fixpoint string_in (s : string) (l : list string) : bool :=
  match l with
  | [] => false
  | x :: rest => String.eqb x s || string_in s rest
  end.

End Str.

(* ===================================================================== *)
(** * [urllib.parse]: [urlparse], [urlencode], [urlunparse]

    The standard-library functions [create_error_redirect] calls, written
    after CPython's [Lib/urllib/parse.py].  Left out: the stripping of
    leading control characters and of tab/newline characters, and the
    [ValueError] raised for a malformed bracketed IPv6 host or a host that
    changes under NFKC normalisation; the text of a validated [AnyUrl]
    triggers none of them. *)
(* ===================================================================== *)

Module UrlLib.

Record ParseResult := mkParseResult {
  scheme : string;
  netloc : string;
  path : string;
  params : string;
  query : string;
  fragment : string
}.

Definition uses_params : list string :=
  [""; "ftp"; "hdl"; "prospero"; "http"; "imap"; "https"; "shttp"; "rtsp";
   "rtspu"; "sip"; "sips"; "mms"; "sftp"; "tel"].

Definition uses_netloc : list string :=
  [""; "ftp"; "http"; "gopher"; "nntp"; "telnet"; "imap"; "wais"; "file";
   "mms"; "https"; "shttp"; "snews"; "prospero"; "rtsp"; "rtspu"; "rsync";
   "svn"; "svn+ssh"; "sftp"; "nfs"; "git"; "git+ssh"; "ws"; "wss"].

(** [scheme_chars]: letters, digits and [+-.] *)
Definition scheme_char (c : ascii) : bool :=
  Str.is_alpha c || Str.is_digit c || Str.mem c "+-.".

(** The scheme test of [urlsplit]: [i = url.find(':')], [i > 0], the first
    character a letter and every character before the colon a scheme
    character. *)
Definition split_scheme (url : string) : string * string :=
  match Str.split_first ":" url with
  | Some (String a pre, rest) =>
      if Str.is_alpha a && Str.forallb scheme_char (String a pre)
      then (Str.lower (String a pre), rest)
      else (EmptyString, url)
  | _ => (EmptyString, url)
  end.

(** [if url[:2] == '//': netloc, url = _splitnetloc(url, 2)] *)
Definition split_netloc (url : string) : string * string :=
  match url with
  | String "/" (String "/" rest) => Str.span_until "/?#" rest
  | _ => (EmptyString, url)
  end.

(** [if c in url: url, x = url.split(c, 1)] *)
Definition split_opt (c : ascii) (url : string) : string * string :=
  match Str.split_first c url with
  | Some (l, r) => (l, r)
  | None => (url, EmptyString)
  end.

(** The index-free reading of [_splitparams]: the first [;] after the last
    [/] splits the path. *)
Fixpoint split_params (url : string) : string * string :=
  match url with
  | EmptyString => (EmptyString, EmptyString)
  | String a rest =>
      if Str.mem "/" rest then
        let (l, r) := split_params rest in (String a l, r)
      else
        (* [a] is the last slash, or the url has none from here on *)
        if Ascii.eqb a ";" then (EmptyString, rest)
        else let (l, r) := split_opt ";" rest in (String a l, r)
  end.

Definition urlparse (url : string) : ParseResult :=
  let (sch, url1) := split_scheme url in
  let (nl, url2) := split_netloc url1 in
  let (url3, frag) := split_opt "#" url2 in
  let (url4, q) := split_opt "?" url3 in
  let (url5, prm) :=
    if Str.string_in sch uses_params && Str.mem ";" url4
    then split_params url4 else (url4, EmptyString) in
  mkParseResult sch nl url5 prm q frag.

(** [parsed._replace(query=q)] *)
Definition replace_query (p : ParseResult) (q : string) : ParseResult :=
  mkParseResult (scheme p) (netloc p) (path p) (params p) q (fragment p).

Definition starts_with_2slash (s : string) : bool :=
  match s with String "/" (String "/" _) => true | _ => false end.

Definition starts_with_slash (s : string) : bool :=
  match s with String "/" _ => true | _ => false end.

(** The part of [urlunparse]/[urlunsplit] before the query is added. *)
Definition unparse_head (p : ParseResult) : string :=
  let url := if Str.is_empty (params p) then path p
             else path p ++ ";" ++ params p in
  let url :=
    if negb (Str.is_empty (netloc p))
       || (negb (Str.is_empty (scheme p))
           && Str.string_in (scheme p) uses_netloc
           && negb (starts_with_2slash url))
    then
      let url := if negb (Str.is_empty url) && negb (starts_with_slash url)
                 then "/" ++ url else url in
      "//" ++ netloc p ++ url
    else url in
  if Str.is_empty (scheme p) then url else scheme p ++ ":" ++ url.

Definition unparse_tail (p : ParseResult) : string :=
  if Str.is_empty (fragment p) then EmptyString else "#" ++ fragment p.

Definition urlunparse (p : ParseResult) : string :=
  let url := unparse_head p in
  let url := if Str.is_empty (query p) then url else url ++ "?" ++ query p in
  if Str.is_empty (fragment p) then url else url ++ "#" ++ fragment p.

(** ** [quote_plus] and [urlencode] *)

Definition hex_digit (n : nat) : ascii :=
  if Nat.ltb n 10 then ascii_of_nat (48 + n) else ascii_of_nat (55 + n).

(** [_ALWAYS_SAFE]: letters, digits and [_.-~] *)
Definition always_safe (c : ascii) : bool :=
  Str.is_alpha c || Str.is_digit c || Str.mem c "_.-~".

Definition quote_plus_char (c : ascii) : string :=
  if always_safe c then String c EmptyString
  else if Ascii.eqb c " " then "+"
  else let n := nat_of_ascii c in
       String "%" (String (hex_digit (n / 16))
                          (String (hex_digit (n mod 16)) EmptyString)).

Fixpoint quote_plus (s : string) : string :=
  match s with
  | EmptyString => EmptyString
  | String c rest => quote_plus_char c ++ quote_plus rest
  end.

(** [urlencode(d)] for a dict of strings, in insertion order *)
Definition urlencode (q : list (string * string)) : string :=
  Str.join "&" (List.map (fun kv => quote_plus (fst kv) ++ "=" ++ quote_plus (snd kv)) q).

End UrlLib.

(* ===================================================================== *)
(** * Data model *)
(* ===================================================================== *)

(** A validated pydantic URL ([AnyUrl], [AnyHttpUrl]); [url_str u] is
    [str(u)].  Such an object is always truthy. *)
Record Url := mkUrl { url_str : string }.

(** Modelled from the spec: [AuthorizationErrorCode] is declared in
    [mcp/server/auth/provider.py], which is not among the sources; these are
    the codes section 6 of the specification lists. *)
Inductive AuthorizationErrorCode :=
| invalid_request
| unauthorized_client
| access_denied
| unsupported_response_type
| invalid_scope
| server_error
| temporarily_unavailable.

Definition error_code_str (e : AuthorizationErrorCode) : string :=
  match e with
  | invalid_request => "invalid_request"
  | unauthorized_client => "unauthorized_client"
  | access_denied => "access_denied"
  | unsupported_response_type => "unsupported_response_type"
  | invalid_scope => "invalid_scope"
  | server_error => "server_error"
  | temporarily_unavailable => "temporarily_unavailable"
  end.

(** [class AuthorizationErrorResponse(BaseModel)] *)
Record AuthorizationErrorResponse := mkErrorResponse {
  aer_error : AuthorizationErrorCode;
  aer_error_description : option string;
  aer_error_uri : option Url;
  aer_state : option string
}.

(** [model_dump(exclude_none=True)]: the fields that are not [None], in the
    order of declaration.  The URL is kept as an object here; the callers
    turn it into text. *)
Inductive FieldValue :=
| VStr (s : string)
| VUrl (u : Url).

Definition opt_field (key : string) (v : option FieldValue)
  : list (string * FieldValue) :=
  match v with
  | Some x => [(key, x)]
  | None => []
  end.

Definition model_dump_exclude_none (r : AuthorizationErrorResponse)
  : list (string * FieldValue) :=
  ([("error", VStr (error_code_str (aer_error r)))]
   ++ opt_field "error_description" (option_map VStr (aer_error_description r))
   ++ opt_field "error_uri" (option_map VUrl (aer_error_uri r))
   ++ opt_field "state" (option_map VStr (aer_state r)))%list.

(** [str(v)] of a dumped value *)
Definition field_str (v : FieldValue) : string :=
  match v with
  | VStr s => s
  | VUrl u => url_str u
  end.

(* ===================================================================== *)
(** * [create_error_redirect] *)
(* ===================================================================== *)

(** The second argument, [error: Exception | AuthorizationErrorResponse].
    [OAuthError] lives in [mcp/server/auth/errors.py]; what the function reads
    of it is [error.error_code] and [str(error)]. *)
Inductive ErrorArg :=
| IsErrorResponse (r : AuthorizationErrorResponse)
| IsOAuthError (error_code : string) (str_error : string)
| IsOtherException.

(** The loop over [error_dict.items()].  A dumped value is never [None].
    Under the key [error_uri] the value, a URL object, is stored as
    [str(value)]; under any other key it is stored as it is, a text.  Either
    way the dict ends up with the text of the value. *)
Definition query_params_of_dump (d : list (string * FieldValue))
  : list (string * string) :=
  List.map (fun kv => (fst kv, field_str (snd kv))) d.

Definition error_query_params (error : ErrorArg) : list (string * string) :=
  match error with
  | IsErrorResponse r => query_params_of_dump (model_dump_exclude_none r)
  | IsOAuthError code msg => [("error", code); ("error_description", msg)]
  | IsOtherException =>
      [("error", "server_error");
       ("error_description", "An unknown error occurred")]
  end.

Definition create_error_redirect (redirect_uri : Url) (error : ErrorArg)
  : string :=
  let parsed_uri := UrlLib.urlparse (url_str redirect_uri) in
  let query_params := error_query_params error in
  let new_query := UrlLib.urlencode query_params in
  let new_query :=
    if negb (Str.is_empty (UrlLib.query parsed_uri))
    then UrlLib.query parsed_uri ++ "&" ++ new_query
    else new_query in
  UrlLib.urlunparse (UrlLib.replace_query parsed_uri new_query).

(* ===================================================================== *)
(** * Request parameters: starlette's [QueryParams] and [FormData] *)
(* ===================================================================== *)

(** A value of the parameter source.  A query string holds text only; a
    form body may also hold an uploaded file, which is not a [str]. *)
Inductive ParamValue :=
| StrValue (s : string)
| UploadFile.

(** The items of the multi-dict, in the order received.  [params.get(k)],
    [k in params] and the mapping pydantic reads all go through the dict
    built from the items, in which the last item of a key wins. *)
Definition Params := list (string * ParamValue).

Fixpoint params_get (key : string) (p : Params) : option ParamValue :=
  match p with
  | [] => None
  | (k, v) :: rest =>
      match params_get key rest with
      | Some v' => Some v'
      | None => if String.eqb k key then Some v else None
      end
  end.

Definition params_contains (key : string) (p : Params) : bool :=
  match params_get key p with
  | Some _ => true
  | None => false
  end.

Definition best_effort_extract_string (key : string) (params : option Params)
  : option string :=
  match params with
  | None => None
  | Some p =>
      match params_get key p with
      | Some (StrValue value) => Some value
      | _ => None
      end
  end.

(* ===================================================================== *)
(** * [AuthorizationRequest] and its pydantic validation *)
(* ===================================================================== *)

(** One entry of [ValidationError.errors()]: where and what kind. *)
Record ErrorDetails := mkErrorDetails {
  loc : list string;
  type : string
}.

Record AuthorizationRequest := mkAuthorizationRequest {
  ar_client_id : string;
  ar_redirect_uri : option Url;
  ar_response_type : string;
  ar_code_challenge : string;
  ar_code_challenge_method : string;
  ar_state : option string;
  ar_scope : option string
}.

Module Pydantic.

(** A field's outcome: its value, or the errors it contributes. *)
Definition FieldResult (A : Type) := (list ErrorDetails + A)%type.

Definition field_error {A} (name kind : string) : FieldResult A :=
  inl [mkErrorDetails [name] kind].

(** [name: str = Field(...)] *)
Definition required_str (name : string) (p : Params) : FieldResult string :=
  match params_get name p with
  | None => field_error name "missing"
  | Some (StrValue s) => inr s
  | Some UploadFile => field_error name "string_type"
  end.

(** [name: str | None = Field(None)] *)
Definition optional_str (name : string) (p : Params)
  : FieldResult (option string) :=
  match params_get name p with
  | None => inr None
  | Some (StrValue s) => inr (Some s)
  | Some UploadFile => field_error name "string_type"
  end.

(** [name: Literal[lit] = Field(...)] *)
Definition required_literal (name lit : string) (p : Params)
  : FieldResult string :=
  match params_get name p with
  | None => field_error name "missing"
  | Some (StrValue s) =>
      if String.eqb s lit then inr s else field_error name "literal_error"
  | Some UploadFile => field_error name "literal_error"
  end.

(** [name: Literal[lit] = Field(lit)] *)
Definition default_literal (name lit : string) (p : Params)
  : FieldResult string :=
  match params_get name p with
  | None => inr lit
  | Some (StrValue s) =>
      if String.eqb s lit then inr s else field_error name "literal_error"
  | Some UploadFile => field_error name "literal_error"
  end.

Definition errors_of {A} (r : FieldResult A) : list ErrorDetails :=
  match r with
  | inl es => es
  | inr _ => []
  end.

End Pydantic.

(** The loop of [handle] over [validation_error.errors()]. *)
Definition is_response_type_literal_error (e : ErrorDetails) : bool :=
  match loc e with
  | [field] => String.eqb field "response_type"
  | _ => false
  end
  && String.eqb (type e) "literal_error".

Fixpoint classify_validation_error (errors : list ErrorDetails)
  : AuthorizationErrorCode :=
  match errors with
  | [] => invalid_request
  | e :: rest =>
      if is_response_type_literal_error e then unsupported_response_type
      else classify_validation_error rest
  end.

(* ===================================================================== *)
(** * Exceptions, responses *)
(* ===================================================================== *)

(** The exceptions the handler distinguishes; every one of them is an
    [Exception].  [OtherException] stands for any other [Exception] a
    collaborator raises. *)
Inductive Exc :=
| ValidationError (errors : list ErrorDetails)
| InvalidRedirectUriError (message : string)
| InvalidScopeError (message : string)
| AuthorizeError (error : AuthorizationErrorCode)
                 (error_description : option string)
| OtherException (repr : string).

Definition Result (A : Type) := (Exc + A)%type.

Definition Headers := list (string * string).

Inductive Response :=
| RedirectResponse (url : string) (status_code : nat) (headers : Headers)
| PydanticJSONResponse (status_code : nat)
                       (content : AuthorizationErrorResponse)
                       (headers : Headers).

Definition status_code_of (r : Response) : nat :=
  match r with
  | RedirectResponse _ sc _ => sc
  | PydanticJSONResponse sc _ _ => sc
  end.

Definition is_redirect (r : Response) : bool :=
  match r with
  | RedirectResponse _ _ _ => true
  | PydanticJSONResponse _ _ _ => false
  end.

Definition headers_of (r : Response) : Headers :=
  match r with
  | RedirectResponse _ _ h => h
  | PydanticJSONResponse _ _ h => h
  end.

(** The incoming [Request], as far as [handle] reads it: the method, the
    query parameters, and what awaiting [request.form()] gives (parsing the
    body can fail). *)
Record Request := mkRequest {
  method : string;
  query_params : Params;
  form : Result Params
}.

(** Modelled from the spec: [construct_redirect_uri] is defined in
    [mcp/server/auth/provider.py], which is not among the sources.  Section
    4.4 of the specification: parse the base URI's existing query string,
    append the new encoded fields after it (concatenation with [&],
    preserving any pre-existing query), and reassemble the URI; only fields
    with non-null values are passed. *)
Definition construct_redirect_uri (redirect_uri_base : string)
  (fields : list (string * string)) : string :=
  let parsed_uri := UrlLib.urlparse redirect_uri_base in
  let new_query := UrlLib.urlencode fields in
  let new_query :=
    if negb (Str.is_empty (UrlLib.query parsed_uri))
    then UrlLib.query parsed_uri ++ "&" ++ new_query
    else new_query in
  UrlLib.urlunparse (UrlLib.replace_query parsed_uri new_query).

(* ===================================================================== *)
(** * The handler *)
(* ===================================================================== *)

Section Handler.

(** The external collaborators.  [World] is whatever state the provider
    keeps between calls: its two coroutines read and change it and may
    raise.  The two validators are synchronous methods of the client
    record. *)
Variable World : Type.
Variable Client : Type.
Variable Scopes : Type.

(** [AuthorizationParams], built in [mcp/server/auth/provider.py] *)
Record AuthorizationParams := mkAuthorizationParams {
  ap_state : option string;
  ap_scopes : Scopes;
  ap_code_challenge : string;
  ap_redirect_uri : Url
}.

(** pydantic's [AnyHttpUrl] validation of a text: the URL, or the type of
    the error entry ([url_parsing], [url_scheme], ...). *)
Variable parse_http_url : string -> string + Url.
Variable stringify_pydantic_error : list ErrorDetails -> string.

Variable get_client : string -> World -> Result (option Client) * World.
Variable validate_redirect_uri : Client -> option Url -> Result Url.
Variable validate_scope : Client -> option string -> Result Scopes.
Variable authorize :
  Client -> AuthorizationParams -> World -> Result string * World.

(** ** Schema validation *)

(** [redirect_uri: AnyHttpUrl | None = Field(None)] *)
Definition redirect_uri_field (p : Params)
  : Pydantic.FieldResult (option Url) :=
  match params_get "redirect_uri" p with
  | None => inr None
  | Some (StrValue s) =>
      match parse_http_url s with
      | inl kind => Pydantic.field_error "redirect_uri" kind
      | inr u => inr (Some u)
      end
  | Some UploadFile => Pydantic.field_error "redirect_uri" "url_type"
  end.

(** [AuthorizationRequest.model_validate(params)]: every field is
    validated, and the errors of all of them are reported together, in the
    order of the fields. *)
Definition AuthorizationRequest_model_validate (p : Params)
  : Result AuthorizationRequest :=
  let client_id := Pydantic.required_str "client_id" p in
  let redirect_uri := redirect_uri_field p in
  let response_type := Pydantic.required_literal "response_type" "code" p in
  let code_challenge := Pydantic.required_str "code_challenge" p in
  let code_challenge_method :=
    Pydantic.default_literal "code_challenge_method" "S256" p in
  let state := Pydantic.optional_str "state" p in
  let scope := Pydantic.optional_str "scope" p in
  match client_id, redirect_uri, response_type, code_challenge,
        code_challenge_method, state, scope with
  | inr a, inr b, inr c, inr d, inr e, inr f, inr g =>
      inr (mkAuthorizationRequest a b c d e f g)
  | _, _, _, _, _, _, _ =>
      inl (ValidationError
             (Pydantic.errors_of client_id
              ++ Pydantic.errors_of redirect_uri
              ++ Pydantic.errors_of response_type
              ++ Pydantic.errors_of code_challenge
              ++ Pydantic.errors_of code_challenge_method
              ++ Pydantic.errors_of state
              ++ Pydantic.errors_of scope)%list)
  end.

(** [AnyHttpUrlModel.model_validate(v).root]; [None] is not a URL. *)
Definition AnyHttpUrlModel_model_validate (v : option string) : Result Url :=
  match v with
  | None => inl (ValidationError [mkErrorDetails [] "url_type"])
  | Some s =>
      match parse_http_url s with
      | inl kind => inl (ValidationError [mkErrorDetails [] kind])
      | inr u => inr u
      end
  end.

(** ** The variables of [handle] and the monad *)

(** What the variable [client] can hold: [None], a client record, or the
    empty text that [client_id and ...] leaves when [client_id] is [""]. *)
Inductive ClientVar :=
| ClientNone
| ClientEmptyStr
| ClientObj (c : Client).

Definition client_is_none (c : ClientVar) : bool :=
  match c with ClientNone => true | _ => false end.

Definition client_of_option (c : option Client) : ClientVar :=
  match c with
  | Some c => ClientObj c
  | None => ClientNone
  end.

(** The four variables [error_response] shares with [handle] through
    [nonlocal] (and [params], which it reads), the provider's state, and
    the log. *)
Record Frame := mkFrame {
  state : option string;
  redirect_uri : option Url;
  client : ClientVar;
  params : option Params;
  world : World;
  log : list string
}.

Definition M (A : Type) := Frame -> Result A * Frame.

Definition ret {A} (a : A) : M A := fun f => (inr a, f).
Definition raise {A} (e : Exc) : M A := fun f => (inl e, f).
Definition bind {A B} (m : M A) (k : A -> M B) : M B :=
  fun f =>
    match m f with
    | (inr a, f') => k a f'
    | (inl e, f') => (inl e, f')
    end.

(** [try: m except ...: h]; [h e = None] when no clause matches [e]. *)
Definition try_except {A} (m : M A) (h : Exc -> option (M A)) : M A :=
  fun f =>
    match m f with
    | (inr a, f') => (inr a, f')
    | (inl e, f') =>
        match h e with
        | Some k => k f'
        | None => (inl e, f')
        end
    end.

Definition lift {A} (r : Result A) : M A := fun f => (r, f).

Definition read {A} (proj : Frame -> A) : M A := fun f => (inr (proj f), f).

Definition set_state (v : option string) : M unit :=
  fun f => (inr tt, mkFrame v (redirect_uri f) (client f) (params f)
                            (world f) (log f)).
Definition set_redirect_uri (v : option Url) : M unit :=
  fun f => (inr tt, mkFrame (state f) v (client f) (params f)
                            (world f) (log f)).
Definition set_client (v : ClientVar) : M unit :=
  fun f => (inr tt, mkFrame (state f) (redirect_uri f) v (params f)
                            (world f) (log f)).
Definition set_params (v : option Params) : M unit :=
  fun f => (inr tt, mkFrame (state f) (redirect_uri f) (client f) v
                            (world f) (log f)).

(** An awaited call of the provider *)
Definition await {A} (call : World -> Result A * World) : M A :=
  fun f =>
    let (r, w) := call (world f) in
    (r, mkFrame (state f) (redirect_uri f) (client f) (params f) w (log f)).

Definition logger_exception (msg : string) : M unit :=
  fun f => (inr tt, mkFrame (state f) (redirect_uri f) (client f) (params f)
                            (world f) (log f ++ [msg])%list).

Notation "x <- m ;; k" := (bind m (fun x => k))
  (at level 61, m at next level, right associativity).
Notation "m ;; k" := (bind m (fun _ => k))
  (at level 61, right associativity).

(** ** [error_response], the error router nested in [handle] *)

Definition no_store : Headers := [("Cache-Control", "no-store")].

(** The keyword arguments [**error_resp.model_dump(exclude_none=True)] *)
Definition error_fields (r : AuthorizationErrorResponse)
  : list (string * string) :=
  List.map (fun kv => (fst kv, field_str (snd kv)))
           (model_dump_exclude_none r).

(** [error_response] runs four blocks in a row; the first three are its
    "last-ditch" recoveries. *)

(** Lines 96-99: [if client is None and attempt_load_client]. *)
Definition load_client (attempt_load_client : bool) : M unit :=
  c0 <- read client ;;
  if client_is_none c0 && attempt_load_client then
    (* make last-ditch attempt to load the client *)
    p <- read params ;;
    match best_effort_extract_string "client_id" p with
    | None => set_client ClientNone
    | Some EmptyString => set_client ClientEmptyStr
    | Some client_id =>
        c <- await (get_client client_id) ;;
        set_client (client_of_option c)
    end
  else ret tt.

(** Lines 102-107: the candidate redirect URI read from the raw
    parameters.  This is outside the [try] of line 108. *)
Definition load_raw_redirect_uri : M (option Url) :=
  p <- read params ;;
  match p with
  | Some p' =>
      if negb (params_contains "redirect_uri" p') then ret None
      else u <- lift (AnyHttpUrlModel_model_validate
                        (best_effort_extract_string "redirect_uri" p)) ;;
           ret (Some u)
  | None =>
      u <- lift (AnyHttpUrlModel_model_validate
                   (best_effort_extract_string "redirect_uri" p)) ;;
      ret (Some u)
  end.

(** Lines 100-111: [if redirect_uri is None and client]. *)
Definition load_redirect_uri : M unit :=
  r0 <- read redirect_uri ;;
  c1 <- read client ;;
  match r0, c1 with
  | None, ClientObj c =>
      (* make last-ditch effort to load the redirect uri *)
      raw_redirect_uri <- load_raw_redirect_uri ;;
      try_except
        (u <- lift (validate_redirect_uri c raw_redirect_uri) ;;
         set_redirect_uri (Some u))
        (fun e =>
           match e with
           | ValidationError _ | InvalidRedirectUriError _ => Some (ret tt)
           | _ => None
           end)
  | _, _ => ret tt
  end.

(** Lines 112-114: [if state is None]. *)
Definition load_state : M unit :=
  s0 <- read state ;;
  match s0 with
  | None =>
      (* make last-ditch effort to load state *)
      p <- read params ;;
      set_state (best_effort_extract_string "state" p)
  | Some _ => ret tt
  end.

(** Lines 116-135: the response. *)
Definition build_response (error : AuthorizationErrorCode)
  (error_description : option string) : M Response :=
  s1 <- read state ;;
  let error_resp := mkErrorResponse error error_description None s1 in
  r1 <- read redirect_uri ;;
  c2 <- read client ;;
  match r1, c2 with
  | Some u, ClientObj _ =>
      ret (RedirectResponse
             (construct_redirect_uri (url_str u) (error_fields error_resp))
             302 no_store)
  | _, _ => ret (PydanticJSONResponse 400 error_resp no_store)
  end.

Definition error_response (error : AuthorizationErrorCode)
  (error_description : option string) (attempt_load_client : bool)
  : M Response :=
  load_client attempt_load_client ;;
  load_redirect_uri ;;
  load_state ;;
  build_response error error_description.

(** ** [AuthorizationHandler.handle] *)

(** [params = request.query_params] or [await request.form()] *)
Definition read_params (request : Request) : M Params :=
  if String.eqb (method request) "GET"
  then ret (query_params request)
  else (* Parse form data for POST requests *)
       lift (form request).

Definition client_not_found (client_id : string) : string :=
  "Client ID '" ++ client_id ++ "' not found".

(** The body of the outer [try]. *)
Definition handle_try (request : Request) : M Response :=
  (* Parse request parameters *)
  p <- read_params request ;;
  set_params (Some p) ;;
  (* Save state if it exists, even before validation *)
  set_state (best_effort_extract_string "state" (Some p)) ;;
  match AuthorizationRequest_model_validate p with
  | inl (ValidationError errors) =>
      error_response (classify_validation_error errors)
                     (Some (stringify_pydantic_error errors)) true
  | inl e => raise e
  | inr auth_request =>
      set_state (ar_state auth_request) ;;
      (* Get client information *)
      c <- await (get_client (ar_client_id auth_request)) ;;
      set_client (client_of_option c) ;;
      match c with
      | None =>
          error_response invalid_request
            (Some (client_not_found (ar_client_id auth_request))) false
      | Some cl =>
          (* Validate redirect_uri against client's registered URIs *)
          match validate_redirect_uri cl (ar_redirect_uri auth_request) with
          | inl (InvalidRedirectUriError message) =>
              error_response invalid_request (Some message) true
          | inl e => raise e
          | inr u =>
              set_redirect_uri (Some u) ;;
              (* Validate scope - for scope errors, we can redirect *)
              match validate_scope cl (ar_scope auth_request) with
              | inl (InvalidScopeError message) =>
                  error_response invalid_scope (Some message) true
              | inl e => raise e
              | inr scopes =>
                  s <- read state ;;
                  let auth_params :=
                    mkAuthorizationParams s scopes
                      (ar_code_challenge auth_request) u in
                  try_except
                    (url <- await (authorize cl auth_params) ;;
                     ret (RedirectResponse url 302 no_store))
                    (fun e =>
                       match e with
                       | AuthorizeError error error_description =>
                           Some (error_response error error_description true)
                       | _ => None
                       end)
              end
          end
      end
  end.

Definition unexpected : string := "Unexpected error in authorization_handler".

Definition handle_m (request : Request) : M Response :=
  try_except (handle_try request)
    (fun _ =>
       Some (logger_exception unexpected ;;
             error_response server_error
               (Some "An unexpected error occurred") true)).

(** The variables as [handle] initialises them. *)
Definition initial (w : World) : Frame :=
  mkFrame None None ClientNone None w [].

(** [await handler.handle(request)] with the provider in state [w]: the
    response returned or the exception that escapes, and the variables,
    provider state and log at that moment. *)
Definition handle (request : Request) (w : World) : Result Response * Frame :=
  handle_m request (initial w).

(** ** Vocabulary of the properties *)

(** Both a client and a redirect URI are held (line 122 of the source:
    [if redirect_uri and client]). *)
Definition established (f : Frame) : bool :=
  match redirect_uri f, client f with
  | Some _, ClientObj _ => true
  | _, _ => false
  end.

(** The redirect URI held, if any, is one that the client held accepted:
    it is the value of [client.validate_redirect_uri] on some candidate. *)
Definition validated (f : Frame) : Prop :=
  forall u, redirect_uri f = Some u ->
    exists c raw, client f = ClientObj c
                  /\ validate_redirect_uri c raw = inr u.

(** An error response as the router delivers it: by redirect to [target],
    or as a JSON body when there is no target. *)
Definition deliver (error_resp : AuthorizationErrorResponse)
  (target : option Url) : Response :=
  match target with
  | Some u =>
      RedirectResponse
        (construct_redirect_uri (url_str u) (error_fields error_resp))
        302 no_store
  | None => PydanticJSONResponse 400 error_resp no_store
  end.

Definition target_of (f : Frame) : option Url :=
  if established f then redirect_uri f else None.

(** A response that delivers some error, to the target held in [f]. *)
Definition error_delivery (f : Frame) (resp : Response) : Prop :=
  exists error_resp, resp = deliver error_resp (target_of f).

(** The success response: a 302 to the URL that the delegate returned when
    called with the client held in [f] and parameters whose redirect URI is
    the one held in [f]. *)
Definition delegate_redirect (f : Frame) (resp : Response) : Prop :=
  exists c u auth_params w0 w1 url,
    client f = ClientObj c /\ redirect_uri f = Some u
    /\ ap_redirect_uri auth_params = u
    /\ authorize c auth_params w0 = (inr url, w1)
    /\ resp = RedirectResponse url 302 no_store.

(** What the validation raises is a [ValidationError] with the errors of the
    seven fields, in order. *)
Definition field_errors (p : Params) : list ErrorDetails :=
  (Pydantic.errors_of (Pydantic.required_str "client_id" p)
   ++ Pydantic.errors_of (redirect_uri_field p)
   ++ Pydantic.errors_of (Pydantic.required_literal "response_type" "code" p)
   ++ Pydantic.errors_of (Pydantic.required_str "code_challenge" p)
   ++ Pydantic.errors_of (Pydantic.default_literal "code_challenge_method" "S256" p)
   ++ Pydantic.errors_of (Pydantic.optional_str "state" p)
   ++ Pydantic.errors_of (Pydantic.optional_str "scope" p))%list.

(** The parameter source [handle] reads, or the exception reading it
    raises. *)
Definition request_params (request : Request) : Result Params :=
  if String.eqb (method request) "GET"
  then inr (query_params request)
  else form request.

(** [response_type] is present but is not the literal ["code"]. *)
Definition response_type_mismatch (p : Params) : bool :=
  match params_get "response_type" p with
  | Some (StrValue s) => negb (String.eqb s "code")
  | Some UploadFile => true
  | None => false
  end.


(** The variables once the parameters [p] are read and the raw state is
    saved (lines 139-147), before the provider has been called. *)
Definition parsed (p : Params) (w : World) : Frame :=
  mkFrame (best_effort_extract_string "state" (Some p)) None ClientNone
          (Some p) w [].

End Handler.

Arguments ClientNone {Client}.
Arguments ClientEmptyStr {Client}.
Arguments initial {World Client} w.
Arguments parsed {World Client} p w.

(* ===================================================================== *)
(** * A concrete provider, for running the handler *)
(* ===================================================================== *)

Module Example.

(** A registered client: its redirect URIs and its permitted scopes. *)
Record client_info := mkClient {
  redirect_uris : list string;
  scopes : list string
}.

(** The provider's state: how many calls it has served. *)
Definition world := nat.

Definition c1 : client_info :=
  mkClient ["https://app.example/cb?foo=1"] ["read"; "write"].

(** Accepts the texts that start with [http://] or [https://]. *)
Definition parse_http_url (s : string) : string + Url :=
  if String.prefix "http://" s || String.prefix "https://" s
  then inr (mkUrl s) else inl "url_parsing".

Definition stringify (errors : list ErrorDetails) : string :=
  Str.join "; " (List.map (fun e => Str.join "." (loc e) ++ ": " ++ type e) errors).

(** Client [c1] is known; looking up [boom] fails; looking up [flaky]
    fails on the provider's first call only; nothing else is known. *)
Definition get_client (client_id : string) (w : world)
  : Result (option client_info) * world :=
  if String.eqb client_id "c1" then (inr (Some c1), S w)
  else if String.eqb client_id "boom"
  then (inl (OtherException "ConnectionError"), S w)
  else if String.eqb client_id "flaky"
  then (match w with
        | O => inl (OtherException "ConnectionError")
        | S _ => inr (Some c1)
        end, S w)
  else (inr None, S w).

Definition validate_redirect_uri (c : client_info) (u : option Url)
  : Result Url :=
  match u with
  | Some u =>
      if Str.string_in (url_str u) (redirect_uris c) then inr u
      else inl (InvalidRedirectUriError "Redirect URI not registered for client")
  | None =>
      match redirect_uris c with
      | [only] => inr (mkUrl only)
      | _ => inl (InvalidRedirectUriError
                    "redirect_uri must be specified when client has multiple registered URIs")
      end
  end.

Definition validate_scope (c : client_info) (scope : option string)
  : Result (list string) :=
  match scope with
  | None => inr []
  | Some s =>
      if Str.string_in s (scopes c) then inr [s]
      else inl (InvalidScopeError "Client was not registered with scope")
  end.

Definition authorize (c : client_info)
  (p : AuthorizationParams (list string)) (w : world)
  : Result string * world :=
  (inr (construct_redirect_uri (url_str (ap_redirect_uri p)) [("code", "abc")]),
   S w).

Definition run (request : Request) : Result Response * Frame world client_info :=
  handle parse_http_url stringify get_client validate_redirect_uri
         validate_scope authorize request 0.

Definition get (q : Params) : Request :=
  mkRequest "GET" q (inr []).

Definition s (v : string) : ParamValue := StrValue v.

(** A well-formed request *)
Definition good : Request :=
  get [("client_id", s "c1"); ("response_type", s "code");
       ("code_challenge", s "E9Melhoa2OwvFrEMTJguCHaoeK1t8URWbuGJSstw-cM");
       ("redirect_uri", s "https://app.example/cb?foo=1");
       ("scope", s "read"); ("state", s "xyz")].

(** The same with a scope the client may not ask for *)
Definition bad_scope : Request :=
  get [("client_id", s "c1"); ("response_type", s "code");
       ("code_challenge", s "E9Melhoa2OwvFrEMTJguCHaoeK1t8URWbuGJSstw-cM");
       ("redirect_uri", s "https://app.example/cb?foo=1");
       ("scope", s "admin"); ("state", s "xyz")].

(** [code_challenge] is missing; client and redirect URI are fine *)
Definition missing_challenge : Request :=
  get [("client_id", s "c1"); ("response_type", s "code");
       ("redirect_uri", s "https://app.example/cb?foo=1");
       ("state", s "xyz")].


(** An unknown client asking for an unsupported response type *)
Definition unknown_client_token : Request :=
  get [("client_id", s "nobody"); ("response_type", s "token");
       ("code_challenge", s "abc");
       ("redirect_uri", s "https://app.example/cb?foo=1")].

(** An unknown client in an otherwise well-formed request *)
Definition unknown_client : Request :=
  get [("client_id", s "nobody"); ("response_type", s "code");
       ("code_challenge", s "abc");
       ("redirect_uri", s "https://app.example/cb?foo=1")].

(** A known client and a [redirect_uri] that is not a URL *)
Definition garbage_redirect : Request :=
  get [("client_id", s "c1"); ("redirect_uri", s "not a url")].

(** A form whose [redirect_uri] is an uploaded file *)
Definition upload_redirect : Request :=
  mkRequest "POST" []
    (inr [("client_id", s "c1"); ("redirect_uri", UploadFile)]).

(** The resolver fails while the error router recovers the client *)
Definition resolver_fails : Request :=
  get [("client_id", s "boom"); ("state", s "xyz")].

Definition resolver_fails_once : Request :=
  get [("client_id", s "flaky"); ("state", s "xyz")].

(** A [PUT] whose body holds the parameters of [good] and whose query
    string holds something else *)
Definition put_good : Request :=
  mkRequest "PUT" [("client_id", s "nobody")] (inr (query_params good)).

(** A body that cannot be parsed *)
Definition broken_body : Request :=
  mkRequest "POST" [] (inl (OtherException "MultiPartException")).

End Example.

(* ===================================================================== *)
(** * Counting and the characters of an encoded query *)
(* ===================================================================== *)

Module Chars.

(** [s.count(c)] *)
Fixpoint count (c : ascii) (s : string) : nat :=
  match s with
  | EmptyString => 0
  | String a rest => (if Ascii.eqb a c then 1 else 0) + count c rest
  end.

(** What [quote_plus] lets through or produces: the always-safe characters,
    [+] for a space, and [%] in front of two hexadecimal digits. *)
Definition quoted (c : ascii) : bool :=
  UrlLib.always_safe c || Str.mem c "+%".

(** The characters of an encoded query: the quoted ones and the two
    separators [urlencode] writes. *)
Definition encoded (c : ascii) : bool :=
  quoted c || Str.mem c "=&".

(** One encoded field, [key=value]: encoded characters, one [=], no [&]. *)
Definition field_ok (f : string) : Prop :=
  Str.forallb encoded f = true /\ count "=" f = 1 /\ count "&" f = 0.

End Chars.

(* ===================================================================== *)
(** * [ResourceTemplate.matches]

    [src/mcp/server/fastmcp/resources/templates.py], lines 79-86.  The
    method turns the template into a regular expression by two textual
    replacements and matches the URI against it with [re.match].

    Python's [re] is modelled for the expressions these replacements give
    from a template whose text outside the braces has no regex special
    character: a sequence of literal characters and named groups
    [(?P<name>[^/]+)] with ASCII identifiers as names, all different.
    [re_compile] returns [None] on anything else, which includes every
    pattern [re] refuses.  Texts are sequences of characters with code
    below 256. *)
(* ===================================================================== *)

Module Template.

(** [s.replace(old, new)] for a one-character [old] *)
Fixpoint replace_char (old : ascii) (new : string) (s : string) : string :=
  match s with
  | EmptyString => EmptyString
  | String c rest =>
      (if Ascii.eqb c old then new else String c EmptyString)
      ++ replace_char old new rest
  end.

(** [self.uri_template.replace("{", "(?P<").replace("}", ">[^/]+)")] *)
Definition uri_pattern (uri_template : string) : string :=
  replace_char "}" ">[^/]+)" (replace_char "{" "(?P<" uri_template).

(** ** The fragment of [re] *)

Inductive Node :=
| Lit (c : ascii)
| NamedSegment (name : string).

(** The special characters of a regular expression *)
Definition special (c : ascii) : bool := Str.mem c ".^$*+?{}[]\|()".

Definition identifier_start (c : ascii) : bool :=
  Str.is_alpha c || Ascii.eqb c "_".

Definition identifier_char (c : ascii) : bool :=
  Str.is_alpha c || Str.is_digit c || Ascii.eqb c "_".

(** [name.isidentifier()] for ASCII names *)
Definition identifier (name : string) : bool :=
  match name with
  | EmptyString => false
  | String c rest => identifier_start c && Str.forallb identifier_char rest
  end.

(** Where the parser stands: in plain text; inside the opening [(?P<] with
    [expected] still to come; inside a group name; or inside the body of
    the group [name] with [expected] still to come. *)
Inductive Mode :=
| Text
| Opening (expected : string)
| Name (so_far : string)
| Body (name : string) (expected : string).

Fixpoint parse (mode : Mode) (seen : list string) (pattern : string)
  : option (list Node) :=
  match pattern with
  | EmptyString =>
      match mode with
      | Text => Some []
      | _ => None
      end
  | String c rest =>
      match mode with
      | Text =>
          if Ascii.eqb c "(" then parse (Opening "?P<") seen rest
          else if special c then None
          else option_map (cons (Lit c)) (parse Text seen rest)
      | Opening EmptyString => None
      | Opening (String e EmptyString) =>
          if Ascii.eqb c e then parse (Name EmptyString) seen rest else None
      | Opening (String e es) =>
          if Ascii.eqb c e then parse (Opening es) seen rest else None
      | Name so_far =>
          if Ascii.eqb c ">" then
            if identifier so_far && negb (Str.string_in so_far seen)
            then parse (Body so_far "[^/]+)") (so_far :: seen) rest
            else None
          else parse (Name (so_far ++ String c EmptyString)) seen rest
      | Body name EmptyString => None
      | Body name (String e EmptyString) =>
          if Ascii.eqb c e
          then option_map (cons (NamedSegment name)) (parse Text seen rest)
          else None
      | Body name (String e es) =>
          if Ascii.eqb c e then parse (Body name es) seen rest else None
      end
  end.

(** [re.compile(pattern)], within the fragment *)
Definition re_compile (pattern : string) : option (list Node) :=
  parse Text [] pattern.

(** [$]: the end of the text, or just before a newline that ends it *)
Definition at_end (s : string) : bool :=
  match s with
  | EmptyString => true
  | String c EmptyString => Ascii.eqb c "010"
  | _ => false
  end.

(** [[^/]+], greedy: with [taken] already matched, take as many more
    characters other than [/] as there are, and give back one at a time
    while what follows, [k], does not match. *)
Fixpoint munch {R : Type} (k : string -> string -> option R)
  (taken : string) (s : string) : option R :=
  match s with
  | EmptyString => k taken EmptyString
  | String c rest =>
      if Ascii.eqb c "/" then k taken s
      else match munch k (taken ++ String c EmptyString) rest with
           | Some r => Some r
           | None => k taken s
           end
  end.

(** [re.match("^" + nodes + "$", s).groupdict()], or [None] when there is
    no match; the groups in the order of the pattern. *)
Fixpoint match_nodes (nodes : list Node) (s : string)
  : option (list (string * string)) :=
  match nodes with
  | [] => if at_end s then Some [] else None
  | Lit c :: rest =>
      match s with
      | String c' s' => if Ascii.eqb c' c then match_nodes rest s' else None
      | EmptyString => None
      end
  | NamedSegment name :: rest =>
      match s with
      | String c s' =>
          if Ascii.eqb c "/" then None
          else munch (fun value tail =>
                        option_map (cons (name, value)) (match_nodes rest tail))
                     (String c EmptyString) s'
      | EmptyString => None
      end
  end.

(** [ResourceTemplate.matches(uri)], on the fragment.  The outer [None]
    says that the pattern of this template is outside the fragment modelled
    and that this definition does not tell what the method does with it: a
    template with a special character outside its braces ([.], [?], [+],
    ...) is still compiled by [re], which gives the character its meaning
    in a regular expression, and may match other URIs than its instances
    or return a value that is [None].  Every property below is stated for
    templates of the fragment ([well_formed]) only.  [Some None] is
    Python's [None] (no match), [Some (Some d)] the [groupdict]. *)
Definition matches (uri_template : string) (uri : string)
  : option (option (list (string * string))) :=
  let pattern := uri_pattern uri_template in
  match re_compile pattern with
  | None => None
  | Some nodes => Some (match_nodes nodes uri)
  end.

(** ** Vocabulary of the properties *)

(** The names of the groups, in order *)
Fixpoint names (nodes : list Node) : list string :=
  match nodes with
  | [] => []
  | Lit _ :: rest => names rest
  | NamedSegment name :: rest => name :: names rest
  end.

(** The text of the nodes with [values] put in place of the groups, in
    order. *)
Fixpoint render (nodes : list Node) (values : list string) : string :=
  match nodes with
  | [] => EmptyString
  | Lit c :: rest => String c (render rest values)
  | NamedSegment _ :: rest =>
      match values with
      | v :: vs => v ++ render rest vs
      | [] => render rest []
      end
  end.

(** The template that is written with these nodes: the literal characters
    as they are and [{name}] for a group. *)
Fixpoint template_of (nodes : list Node) : string :=
  match nodes with
  | [] => EmptyString
  | Lit c :: rest => String c (template_of rest)
  | NamedSegment name :: rest => "{" ++ name ++ "}" ++ template_of rest
  end.

(** The regular expression that is written with these nodes *)
Fixpoint pattern_of (nodes : list Node) : string :=
  match nodes with
  | [] => EmptyString
  | Lit c :: rest => String c (pattern_of rest)
  | NamedSegment name :: rest =>
      "(?P<" ++ name ++ ">[^/]+)" ++ pattern_of rest
  end.

(** A value a group can hold: not empty, and without [/]. *)
Definition segment (v : string) : bool :=
  negb (Str.is_empty v) && negb (Str.mem "/" v).

(** Nodes a template can be written with: literals that are not special,
    and identifiers, all different, as names. *)
Fixpoint well_formed_from (seen : list string) (nodes : list Node) : bool :=
  match nodes with
  | [] => true
  | Lit c :: rest => negb (special c) && well_formed_from seen rest
  | NamedSegment name :: rest =>
      identifier name && negb (Str.string_in name seen)
      && well_formed_from (name :: seen) rest
  end.

Definition well_formed (nodes : list Node) : bool := well_formed_from [] nodes.

(** Every group is followed by a literal [/] or ends the template. *)
Fixpoint slash_delimited (nodes : list Node) : bool :=
  match nodes with
  | [] => true
  | Lit _ :: rest => slash_delimited rest
  | NamedSegment _ :: rest =>
      match rest with
      | [] => true
      | Lit c :: _ => Ascii.eqb c "/" && slash_delimited rest
      | NamedSegment _ :: _ => false
      end
  end.

End Template.

(* ===================================================================== *)
(** * More requests and providers, for running the handler *)
(* ===================================================================== *)

Module Cases.

(** A well-formed request for a redirect URI the client has not
    registered *)
Definition unregistered : Request :=
  Example.get
    [("client_id", Example.s "c1"); ("response_type", Example.s "code");
     ("code_challenge", Example.s "abc");
     ("redirect_uri", Example.s "https://evil.example/cb");
     ("state", Example.s "xyz")].

(** A well-formed request, with nothing optional but [state] *)
Definition plain : Request :=
  Example.get
    [("client_id", Example.s "c1"); ("response_type", Example.s "code");
     ("code_challenge", Example.s "abc"); ("state", Example.s "xyz")].

(** What the validation makes of [plain] *)
Definition plain_validated : AuthorizationRequest :=
  mkAuthorizationRequest "c1" None "code" "abc" "S256" (Some "xyz") None.

(** The same from a client the resolver fails on *)
Definition plain_boom : Request :=
  Example.get
    [("client_id", Example.s "boom"); ("response_type", Example.s "code");
     ("code_challenge", Example.s "abc"); ("state", Example.s "xyz")].

(** [plain] with a PKCE method that is not [S256] *)
Definition plain_method : Request :=
  Example.get
    [("client_id", Example.s "c1"); ("response_type", Example.s "code");
     ("code_challenge", Example.s "abc");
     ("code_challenge_method", Example.s "plain");
     ("state", Example.s "xyz")].

(** A delegate that refuses *)
Definition deny (c : Example.client_info)
  (p : AuthorizationParams (list string)) (w : Example.world)
  : Result string * Example.world :=
  (inl (AuthorizeError access_denied (Some "The user said no")), S w).

(** A delegate that breaks *)
Definition broken (c : Example.client_info)
  (p : AuthorizationParams (list string)) (w : Example.world)
  : Result string * Example.world :=
  (inl (OtherException "RuntimeError"), S w).

(** A redirect validator that breaks *)
Definition broken_validator (c : Example.client_info) (u : option Url)
  : Result Url :=
  inl (OtherException "RuntimeError").

Definition run_with
  (validate_redirect_uri : Example.client_info -> option Url -> Result Url)
  (authorize : Example.client_info -> AuthorizationParams (list string) ->
               Example.world -> Result string * Example.world)
  (request : Request)
  : Result Response * Frame Example.world Example.client_info :=
  handle Example.parse_http_url Example.stringify Example.get_client
         validate_redirect_uri Example.validate_scope authorize request 0.

(** The literal nodes of a text *)
Fixpoint literals (s : string) : list Template.Node :=
  match s with
  | EmptyString => []
  | String c rest => Template.Lit c :: literals rest
  end.

(** The template [weather://{city}/current] *)
Definition weather : list Template.Node :=
  (literals "weather://" ++ [Template.NamedSegment "city"]
   ++ literals "/current")%list.

(** The template [file://docs/readme], without a placeholder *)
Definition readme : list Template.Node := literals "file://docs/readme".

End Cases.

(* ===================================================================== *)
(** * Properties of the redirect composers *)
(* ===================================================================== *)

Lemma append_assoc (a b c : string) : (a ++ b) ++ c = a ++ (b ++ c).
Proof. induction a as [| x a IH]; cbn; [reflexivity | now rewrite IH]. Qed.

Lemma append_empty_r (a : string) : a ++ "" = a.
Proof. induction a as [| x a IH]; cbn; [reflexivity | now rewrite IH]. Qed.

Lemma unparse_head_replace_query p q :
  UrlLib.unparse_head (UrlLib.replace_query p q) = UrlLib.unparse_head p.
Proof. reflexivity. Qed.

(** Reassembling a URL whose query is set to [old & new]: everything before
    the query and the fragment are those of the parsed URL, and the old
    query stands as it was, in front of the new text. *)
Lemma urlunparse_appended p new_query :
  Str.is_empty (UrlLib.query p) = false ->
  UrlLib.urlunparse
    (UrlLib.replace_query p (UrlLib.query p ++ "&" ++ new_query)) =
  UrlLib.unparse_head p ++ "?" ++ UrlLib.query p ++ "&" ++ new_query
  ++ UrlLib.unparse_tail p.
Proof.
  intros Hq. unfold UrlLib.urlunparse, UrlLib.unparse_tail.
  rewrite unparse_head_replace_query. cbn [UrlLib.query UrlLib.fragment UrlLib.replace_query].
  destruct (UrlLib.query p) as [| c q]; [discriminate |]. cbn [Str.is_empty append].
  destruct (Str.is_empty (UrlLib.fragment p)).
  - rewrite append_empty_r. reflexivity.
  - rewrite !append_assoc. cbn. rewrite !append_assoc. reflexivity.
Qed.

Lemma construct_redirect_uri_keeps_query base fields :
  Str.is_empty (UrlLib.query (UrlLib.urlparse base)) = false ->
  construct_redirect_uri base fields =
  UrlLib.unparse_head (UrlLib.urlparse base)
  ++ "?" ++ UrlLib.query (UrlLib.urlparse base)
  ++ "&" ++ UrlLib.urlencode fields
  ++ UrlLib.unparse_tail (UrlLib.urlparse base).
Proof.
  intros Hq. unfold construct_redirect_uri. rewrite Hq. cbn [negb].
  apply urlunparse_appended. assumption.
Qed.

Lemma create_error_redirect_keeps_query redirect_uri error :
  Str.is_empty (UrlLib.query (UrlLib.urlparse (url_str redirect_uri))) = false ->
  create_error_redirect redirect_uri error =
  UrlLib.unparse_head (UrlLib.urlparse (url_str redirect_uri))
  ++ "?" ++ UrlLib.query (UrlLib.urlparse (url_str redirect_uri))
  ++ "&" ++ UrlLib.urlencode (error_query_params error)
  ++ UrlLib.unparse_tail (UrlLib.urlparse (url_str redirect_uri)).
Proof.
  intros Hq. unfold create_error_redirect. rewrite Hq. cbn [negb].
  apply urlunparse_appended. assumption.
Qed.

Lemma error_query_params_fields r :
  error_query_params (IsErrorResponse r) =
  ([("error", error_code_str (aer_error r))]
   ++ match aer_error_description r with
      | Some d => [("error_description", d)]
      | None => []
      end
   ++ match aer_error_uri r with
      | Some u => [("error_uri", url_str u)]
      | None => []
      end
   ++ match aer_state r with
      | Some s => [("state", s)]
      | None => []
      end)%list.
Proof.
  destruct r as [e [d |] [u |] [s |]]; reflexivity.
Qed.

(** C8. Appending [{error: "invalid_scope", state: "xyz"}] to
    [https://app.example/cb?foo=1] gives exactly
    [https://app.example/cb?foo=1&error=invalid_scope&state=xyz].  In
    general, when the base URI has a query string, the result is the base up
    to its query, the old query as it stood, [&], the new fields encoded in
    the order of the response's fields, and the fragment; the new fields are
    those of the response that are not null; a field already in the old
    query is not removed. *)
Theorem C8_create_error_redirect_appends :
  create_error_redirect
    (mkUrl "https://app.example/cb?foo=1")
    (IsErrorResponse (mkErrorResponse invalid_scope None None (Some "xyz")))
  = "https://app.example/cb?foo=1&error=invalid_scope&state=xyz"
  /\ (forall redirect_uri error,
        Str.is_empty (UrlLib.query (UrlLib.urlparse (url_str redirect_uri)))
        = false ->
        create_error_redirect redirect_uri error =
        UrlLib.unparse_head (UrlLib.urlparse (url_str redirect_uri))
        ++ "?" ++ UrlLib.query (UrlLib.urlparse (url_str redirect_uri))
        ++ "&" ++ UrlLib.urlencode (error_query_params error)
        ++ UrlLib.unparse_tail (UrlLib.urlparse (url_str redirect_uri)))
  /\ (forall r,
        error_query_params (IsErrorResponse r) =
        ([("error", error_code_str (aer_error r))]
         ++ match aer_error_description r with
            | Some d => [("error_description", d)]
            | None => []
            end
         ++ match aer_error_uri r with
            | Some u => [("error_uri", url_str u)]
            | None => []
            end
         ++ match aer_state r with
            | Some s => [("state", s)]
            | None => []
            end)%list)
  /\ create_error_redirect
       (mkUrl "https://app.example/cb?error=old&state=abc")
       (IsErrorResponse (mkErrorResponse invalid_scope None None (Some "xyz")))
     = "https://app.example/cb?error=old&state=abc&error=invalid_scope&state=xyz".
Proof.
  split; [vm_compute; reflexivity |].
  split; [exact create_error_redirect_keeps_query |].
  split; [exact error_query_params_fields |].
  vm_compute; reflexivity.
Qed.

(* ===================================================================== *)
(** * Properties of the handler *)
(* ===================================================================== *)

Section HandlerProofs.

Context {World Client Scopes : Type}.
Variable parse_http_url : string -> string + Url.
Variable stringify_pydantic_error : list ErrorDetails -> string.
Variable get_client : string -> World -> Result (option Client) * World.
Variable validate_redirect_uri : Client -> option Url -> Result Url.
Variable validate_scope : Client -> option string -> Result Scopes.
Variable authorize :
  Client -> AuthorizationParams Scopes -> World -> Result string * World.

Local Notation "'error_response''" :=
  (error_response parse_http_url get_client validate_redirect_uri).
Local Notation "'handle_try''" :=
  (handle_try parse_http_url stringify_pydantic_error get_client
              validate_redirect_uri validate_scope authorize).
Local Notation "'handle''" :=
  (handle parse_http_url stringify_pydantic_error get_client
          validate_redirect_uri validate_scope authorize).
Local Notation "'validated''" := (validated validate_redirect_uri).
Local Notation "'model_validate''" :=
  (AuthorizationRequest_model_validate parse_http_url).

(** Unfolding of the monad *)
Ltac unmonad :=
  unfold bind, ret, raise, lift, read, await, try_except, set_state,
    set_redirect_uri, set_client, set_params, logger_exception in *.

Ltac case_step :=
  match goal with
  | H : (_, _) = (_, _) |- _ => inversion H; subst; clear H
  | H : inl _ = inr _ |- _ => discriminate H
  | H : inr _ = inl _ |- _ => discriminate H
  | H : inr _ = inr _ |- _ => inversion H; subst; clear H
  | H : inl _ = inl _ |- _ => inversion H; subst; clear H
  | H : Some _ = Some _ |- _ => inversion H; subst; clear H
  | H : Some _ = None |- _ => discriminate H
  | H : None = Some _ |- _ => discriminate H
  | H : context [match ?x with _ => _ end] |- _ =>
      destruct x eqn:?; cbn in H
  | H : context [if ?x then _ else _] |- _ =>
      destruct x eqn:?; cbn in H
  end.

Lemma bind_inv {A B} (m : M World Client A) (k : A -> M World Client B)
  f0 r f2 :
  bind m k f0 = (r, f2) ->
  (exists a f1, m f0 = (inr a, f1) /\ k a f1 = (r, f2))
  \/ (exists e, m f0 = (inl e, f2) /\ r = inl e).
Proof.
  unfold bind. destruct (m f0) as [[e | a] f1]; intros H.
  - right. exists e. inversion H; subst. auto.
  - left. exists a, f1. auto.
Qed.

(** The client recovery touches nothing but [client] and the provider, and
    leaves a client that is already held alone. *)
Lemma load_client_inv attempt f0 r f1 :
  load_client get_client attempt f0 = (r, f1) ->
  state f1 = state f0 /\ redirect_uri f1 = redirect_uri f0
  /\ params f1 = params f0 /\ log f1 = log f0
  /\ (client f0 <> ClientNone -> client f1 = client f0).
Proof.
  destruct f0 as [st ru cl pr w lg]. unfold load_client. unmonad. cbn.
  destruct cl; cbn;
    [ destruct attempt; cbn | | ];
    intros H; repeat case_step; cbn; repeat split; congruence.
Qed.

(** The redirect recovery either leaves [redirect_uri] alone or sets it,
    from [None], to what the held client's validator returned. *)
Lemma load_redirect_uri_inv (f0 : Frame World Client) r f1 :
  load_redirect_uri parse_http_url validate_redirect_uri f0 = (r, f1) ->
  state f1 = state f0 /\ client f1 = client f0
  /\ params f1 = params f0 /\ log f1 = log f0 /\ world f1 = world f0
  /\ (redirect_uri f1 = redirect_uri f0
      \/ (redirect_uri f0 = None
          /\ exists c raw u, client f0 = ClientObj c
                             /\ validate_redirect_uri c raw = inr u
                             /\ redirect_uri f1 = Some u)).
Proof.
  destruct f0 as [st ru cl pr w lg].
  unfold load_redirect_uri, load_raw_redirect_uri. unmonad. cbn.
  destruct ru as [u0 |]; [intros H; inversion H; subst; cbn; tauto |].
  destruct cl as [| | c]; try (intros H; inversion H; subst; cbn; tauto).
  intros H.
  repeat case_step; cbn; repeat split; auto;
    right; split; auto; eauto 10.
Qed.

Lemma load_state_eq (f0 : Frame World Client) :
  @load_state World Client f0 =
  (inr tt,
   mkFrame (match state f0 with
            | Some s => Some s
            | None => best_effort_extract_string "state" (params f0)
            end)
           (redirect_uri f0) (client f0) (params f0) (world f0) (log f0)).
Proof.
  destruct f0 as [st ru cl pr w lg]. unfold load_state. unmonad. cbn.
  destruct st; reflexivity.
Qed.

Lemma build_response_eq error description (f0 : Frame World Client) :
  @build_response World Client error description f0 =
  (inr (deliver (mkErrorResponse error description None (state f0))
                (target_of f0)), f0).
Proof.
  destruct f0 as [st ru cl pr w lg].
  unfold build_response, target_of, established, deliver. unmonad. cbn.
  destruct ru; [destruct cl |]; reflexivity.
Qed.

(** The error router, whatever it meets: the redirect URI stays one the
    client accepted, [params] and the log are not touched, a state already
    held is kept and a missing one is read from the raw parameters; and a
    response, when one comes out, is the error delivered to the validated
    target or as a JSON body. *)
Lemma error_response_inv error description attempt f0 r f1 :
  error_response' error description attempt f0 = (r, f1) ->
  validated' f0 ->
  validated' f1
  /\ params f1 = params f0
  /\ log f1 = log f0
  /\ (forall resp, r = inr resp ->
        state f1 = match state f0 with
                   | Some s => Some s
                   | None => best_effort_extract_string "state" (params f0)
                   end
        /\ resp = deliver (mkErrorResponse error description None (state f1))
                          (target_of f1)).
Proof.
  unfold error_response. intros H V.
  apply bind_inv in H as [(a & fa & Ha & H) | (e & Ha & ->)].
  2:{ apply load_client_inv in Ha as (Hs & Hr & Hp & Hl & Hc).
      repeat split; try assumption; try discriminate.
      intros u Hu. rewrite Hr in Hu. destruct (V u Hu) as (c & raw & Hcl & Hv).
      exists c, raw. rewrite Hc; [auto | congruence]. }
  apply load_client_inv in Ha as (Hs & Hr & Hp & Hl & Hc).
  assert (Va : validated' fa).
  { intros u Hu. rewrite Hr in Hu. destruct (V u Hu) as (c & raw & Hcl & Hv).
    exists c, raw. rewrite Hc; [auto | congruence]. }
  assert (Vstep : forall fb rb,
             load_redirect_uri parse_http_url validate_redirect_uri fa = (rb, fb) ->
             validated' fb /\ params fb = params f0 /\ log fb = log f0).
  { intros fb rb Hb.
    apply load_redirect_uri_inv in Hb as (Hs' & Hc' & Hp' & Hl' & Hw' & Hru).
    repeat split; try congruence.
    intros u Hu. destruct Hru as [Hsame | (Hnone & c & raw & u' & Hcl & Hv & Hnew)].
    - rewrite Hsame in Hu. destruct (Va u Hu) as (c & raw & Hcl & Hv).
      exists c, raw. rewrite Hc'. auto.
    - rewrite Hnew in Hu. inversion Hu; subst. exists c, raw.
      rewrite Hc'. auto. }
  apply bind_inv in H as [(b & fb & Hb & H) | (e & Hb & ->)].
  2:{ destruct (Vstep _ _ Hb) as (? & ? & ?).
      repeat split; try assumption; try discriminate. }
  destruct (Vstep _ _ Hb) as (Vb & Hpb & Hlb).
  apply load_redirect_uri_inv in Hb as (Hs' & _ & Hp' & _).
  unfold bind in H. rewrite load_state_eq, build_response_eq in H.
  inversion H; subst; clear H. cbn.
  repeat split; auto.
  - rewrite Hs', Hs, Hp', Hp. reflexivity.
  - inversion H; subst. reflexivity.
Qed.

#[local] Arguments error_response : simpl never.
#[local] Arguments AuthorizationRequest_model_validate : simpl never.

Local Notation "'delegate_redirect''" := (delegate_redirect validate_redirect_uri authorize).

Ltac validated_frame :=
  unfold validated; cbn; intros ? Hsome; cbn in Hsome;
  solve [ discriminate Hsome
        | inversion Hsome; subst; eauto ].

Ltac use_router :=
  match goal with
  | H : error_response _ _ _ _ _ _ _ = (_, _) |- _ =>
      apply error_response_inv in H;
      [ destruct H as (? & ? & ? & ?) | validated_frame ]
  end.

(** The body of the [try], whatever happens in it. *)
Lemma handle_try_inv request w r f :
  handle_try' request (initial w) = (r, f) ->
  (validated' f /\ log f = [])
  /\ (forall resp, r = inr resp ->
        error_delivery f resp \/ delegate_redirect authorize f resp).
Proof.
  unfold handle_try, read_params, initial. unmonad. cbn.
  intros H.
  repeat (first [ use_router | case_step ]).
  all: split; [ split; [ first [ assumption | validated_frame ]
                       | first [ assumption | reflexivity ] ]
              | intros resp Hresp; try discriminate Hresp ].
  all: try (left; eexists; match goal with H : forall _, _ = _ -> _ |- _ => apply H end; eauto; fail).
  all: inversion Hresp; subst; right; cbn.
  all: do 6 eexists;
    (split; [ reflexivity | split; [ reflexivity | ] ]);
    (split; [ | split; [ eassumption | reflexivity ] ]); reflexivity.
  all: try (left; eexists; eauto; fail).
Qed.

Lemma read_params_eq request :
  @read_params World Client request = lift (request_params request).
Proof.
  unfold read_params, request_params.
  destruct (String.eqb (method request) "GET"); reflexivity.
Qed.

(** The whole handler: whatever comes out, the redirect URI held is one
    the held client accepted, and a response is either an error delivered
    by the router or the delegate's redirect. *)
Lemma handle_inv request w r f :
  handle' request w = (r, f) ->
  validated' f
  /\ (forall resp, r = inr resp ->
        error_delivery f resp \/ delegate_redirect authorize f resp).
Proof.
  unfold handle, handle_m, try_except.
  destruct (handle_try' request (initial w)) as [[e | resp0] f1] eqn:Ht;
    apply handle_try_inv in Ht as ((V & Hlog) & Hresp).
  - unfold bind, logger_exception. intros H.
    apply error_response_inv in H as (V' & _ & _ & Hd).
    + split; [assumption |]. intros resp ->. left. eexists. apply Hd. reflexivity.
    + intros u Hu. cbn in Hu. destruct (V u Hu) as (c & raw & ? & ?).
      exists c, raw. cbn. auto.
  - intros H. inversion H; subst. split; [assumption |].
    intros resp E. inversion E; subst. auto.
Qed.

Lemma deliver_is_redirect er (f : Frame World Client) :
  is_redirect (deliver er (target_of f)) = established f.
Proof.
  unfold target_of. destruct (established f) eqn:E; cbn; [| reflexivity].
  unfold established in E. destruct (redirect_uri f); [reflexivity | discriminate].
Qed.

Lemma established_inv (f : Frame World Client) :
  established f = true ->
  exists c u, client f = ClientObj c /\ redirect_uri f = Some u.
Proof.
  unfold established. destruct (redirect_uri f) as [u |]; [| discriminate].
  destruct (client f) as [| | c]; try discriminate. eauto.
Qed.

(** C1. For every request, when [handle] returns a response, the response
    is a redirect if and only if a client and a redirect URI are both held
    when it is built.  In that case the URI held is one the client's
    [validate_redirect_uri] returned, and the response is a 302 either to
    that URI with the error fields appended (error router) or to the URL the
    delegate returned for that client and URI (success path).  In every
    other case the response is the error as a JSON body with status 400. *)
Theorem C1_redirect_iff_client_and_validated_uri request w resp f :
  handle' request w = (inr resp, f) ->
  (is_redirect resp = true <-> established f = true)
  /\ (established f = true ->
      exists c u raw,
        client f = ClientObj c /\ redirect_uri f = Some u
        /\ validate_redirect_uri c raw = inr u
        /\ ((exists error_resp,
               resp = RedirectResponse
                        (construct_redirect_uri (url_str u)
                                                (error_fields error_resp))
                        302 no_store)
            \/ (exists auth_params w0 w1 url,
                  ap_redirect_uri auth_params = u
                  /\ authorize c auth_params w0 = (inr url, w1)
                  /\ resp = RedirectResponse url 302 no_store)))
  /\ (established f = false ->
      exists error_resp, resp = PydanticJSONResponse 400 error_resp no_store).
Proof.
  intros H. apply handle_inv in H as (V & Hr).
  destruct (Hr resp eq_refl) as [(er & ->) | D].
  - rewrite deliver_is_redirect. split; [tauto |]. split.
    + intros E. destruct (established_inv f E) as (c & u & Hc & Hu).
      destruct (V u Hu) as (c' & raw & Hc' & Hv).
      assert (c' = c) by congruence. subst c'.
      exists c, u, raw. repeat split; auto. left. exists er.
      unfold target_of. rewrite E, Hu. reflexivity.
    + intros E. exists er. unfold target_of. rewrite E. reflexivity.
  - destruct D as (c & u & ap & w0 & w1 & url & Hc & Hu & Hap & Ha & ->).
    assert (E : established f = true) by (unfold established; rewrite Hu, Hc; reflexivity).
    cbn. split; [tauto |]. split; [| congruence].
    intros _. destruct (V u Hu) as (c' & raw & Hc' & Hv).
    assert (c' = c) by congruence. subst c'.
    exists c, u, raw. repeat split; auto. right. exists ap, w0, w1, url. auto.
Qed.

(** C9. Every response of the handler that is not a redirect has status
    code 400, whatever the error code; a redirect has status 302.  That
    includes [server_error]: when reading the request's parameters raises,
    the catch-all answers with [server_error] as a JSON body with status
    400. *)
Theorem C9_non_redirect_status_400 request w :
  (forall resp f,
     handle' request w = (inr resp, f) ->
     status_code_of resp = (if is_redirect resp then 302 else 400)
     /\ (is_redirect resp = false ->
         exists error_resp,
           resp = PydanticJSONResponse 400 error_resp no_store))
  /\ (forall e,
        request_params request = inl e ->
        handle' request w =
        (inr (PydanticJSONResponse 400
                (mkErrorResponse server_error
                                 (Some "An unexpected error occurred")
                                 None None)
                no_store),
         mkFrame None None ClientNone None w [unexpected])).
Proof.
  split.
  - intros resp f H. apply handle_inv in H as (V & Hr).
    destruct (Hr resp eq_refl) as [(er & ->) | D].
    + unfold deliver. destruct (target_of f); cbn; split; auto; try discriminate.
      intros _. eauto.
    + destruct D as (c & u & ap & w0 & w1 & url & Hc & Hu & Hap & Ha & ->).
      cbn. split; [reflexivity | discriminate].
  - intros e He. unfold handle, handle_m, handle_try.
    rewrite read_params_eq, He. reflexivity.
Qed.

(** ** Reading the parameters *)

(** ** Schema validation *)

Lemma classify_cases errors :
  classify_validation_error errors = invalid_request
  \/ classify_validation_error errors = unsupported_response_type.
Proof.
  induction errors as [| e rest IH]; cbn; [auto |].
  destruct (is_response_type_literal_error e); auto.
Qed.

Lemma classify_app l1 l2 :
  classify_validation_error (l1 ++ l2) =
  match classify_validation_error l1 with
  | unsupported_response_type => unsupported_response_type
  | _ => classify_validation_error l2
  end.
Proof.
  induction l1 as [| e rest IH]; cbn; [reflexivity |].
  destruct (is_response_type_literal_error e); auto.
Qed.

Lemma model_validate_inl p e :
  model_validate' p = inl e ->
  e = ValidationError (field_errors parse_http_url p).
Proof.
  unfold AuthorizationRequest_model_validate, field_errors. cbv zeta.
  repeat match goal with
         | |- match ?x with inl _ => _ | inr _ => _ end = _ -> _ => destruct x
         end;
    intros H; inversion H; reflexivity.
Qed.

Lemma model_validate_inr p a :
  model_validate' p = inr a ->
  Pydantic.required_str "client_id" p = inr (ar_client_id a)
  /\ redirect_uri_field parse_http_url p = inr (ar_redirect_uri a)
  /\ Pydantic.required_literal "response_type" "code" p = inr (ar_response_type a)
  /\ Pydantic.required_str "code_challenge" p = inr (ar_code_challenge a)
  /\ Pydantic.optional_str "state" p = inr (ar_state a)
  /\ Pydantic.optional_str "scope" p = inr (ar_scope a).
Proof.
  unfold AuthorizationRequest_model_validate. cbv zeta.
  repeat match goal with
         | |- match ?x with inl _ => _ | inr _ => _ end = _ -> _ => destruct x
         end;
    intros H; inversion H; cbn; repeat split; reflexivity.
Qed.

(** The error kind of a failed validation is decided by [response_type]
    alone. *)
Lemma classify_field_errors p :
  classify_validation_error (field_errors parse_http_url p) =
  if response_type_mismatch p then unsupported_response_type
  else invalid_request.
Proof.
  assert (E1 : forall name, is_response_type_literal_error
                              (mkErrorDetails [name] "missing") = false).
  { intros name. unfold is_response_type_literal_error. cbn.
    apply andb_false_r. }
  assert (E2 : forall name, is_response_type_literal_error
                              (mkErrorDetails [name] "string_type") = false).
  { intros name. unfold is_response_type_literal_error. cbn.
    apply andb_false_r. }
  assert (C1 : forall name,
             classify_validation_error
               (Pydantic.errors_of (Pydantic.required_str name p)) = invalid_request).
  { intros name. unfold Pydantic.required_str.
    destruct (params_get name p) as [[v |] |]; cbn; rewrite ?E1, ?E2; reflexivity. }
  assert (C2 : forall name,
             classify_validation_error
               (Pydantic.errors_of (Pydantic.optional_str name p)) = invalid_request).
  { intros name. unfold Pydantic.optional_str.
    destruct (params_get name p) as [[v |] |]; cbn; rewrite ?E1, ?E2; reflexivity. }
  assert (C3 : classify_validation_error
                 (Pydantic.errors_of (redirect_uri_field parse_http_url p))
               = invalid_request).
  { unfold redirect_uri_field.
    destruct (params_get "redirect_uri" p) as [[v |] |]; cbn; try reflexivity.
    destruct (parse_http_url v); reflexivity. }
  assert (C4 : classify_validation_error
                 (Pydantic.errors_of
                    (Pydantic.default_literal "code_challenge_method" "S256" p))
               = invalid_request).
  { unfold Pydantic.default_literal.
    destruct (params_get "code_challenge_method" p) as [[v |] |]; cbn;
      try reflexivity.
    destruct (String.eqb v "S256"); reflexivity. }
  assert (C5 : classify_validation_error
                 (Pydantic.errors_of
                    (Pydantic.required_literal "response_type" "code" p))
               = if response_type_mismatch p then unsupported_response_type
                 else invalid_request).
  { unfold Pydantic.required_literal, response_type_mismatch.
    destruct (params_get "response_type" p) as [[v |] |]; cbn; try reflexivity.
    destruct (String.eqb v "code"); reflexivity. }
  pose proof (C1 "client_id") as D1. pose proof (C1 "code_challenge") as D4.
  pose proof (C2 "state") as D6. pose proof (C2 "scope") as D7.
  unfold field_errors.
  generalize dependent (Pydantic.errors_of (Pydantic.required_str "client_id" p)).
  generalize dependent (Pydantic.errors_of (Pydantic.required_str "code_challenge" p)).
  generalize dependent (Pydantic.errors_of (Pydantic.optional_str "state" p)).
  generalize dependent (Pydantic.errors_of (Pydantic.optional_str "scope" p)).
  generalize dependent (Pydantic.errors_of (redirect_uri_field parse_http_url p)).
  generalize dependent (Pydantic.errors_of
                          (Pydantic.default_literal "code_challenge_method" "S256" p)).
  generalize dependent (Pydantic.errors_of
                          (Pydantic.required_literal "response_type" "code" p)).
  clear. intros l3 C5 l5 C4 l2 C3 l7 D7 l6 D6 l4 D4 l1 D1.
  repeat (rewrite classify_app;
          rewrite ?D1, ?C3, ?C5, ?D4, ?C4, ?D6, ?D7).
  destruct (response_type_mismatch p); reflexivity.
Qed.

Lemma mismatch_fails p :
  response_type_mismatch p = true ->
  model_validate' p = inl (ValidationError (field_errors parse_http_url p)).
Proof.
  intros Hm.
  destruct (model_validate' p) as [e | a] eqn:E.
  - apply model_validate_inl in E. congruence.
  - apply model_validate_inr in E as (_ & _ & E & _).
    unfold response_type_mismatch in Hm. unfold Pydantic.required_literal in E.
    destruct (params_get "response_type" p) as [[v |] |]; try discriminate.
    destruct (String.eqb v "code"); discriminate.
Qed.

(** What [handle] does when the validation fails: it enters the error
    router with the kind found, before any call of the provider. *)
Lemma handle_try_invalid request p errors w :
  request_params request = inr p ->
  model_validate' p = inl (ValidationError errors) ->
  handle_try' request (initial w) =
  error_response' (classify_validation_error errors)
                  (Some (stringify_pydantic_error errors)) true (parsed p w).
Proof.
  intros Hp Hv. unfold handle_try. rewrite read_params_eq, Hp.
  unmonad. cbn. rewrite Hv. reflexivity.
Qed.

(** C7. When [response_type] is present but is not the literal ["code"],
    the validation fails and the error kind is exactly
    [unsupported_response_type], whatever else is wrong with the request;
    every other failed validation gives [invalid_request].  This is the kind
    [handle] enters the error router with, and the kind of the response the
    router then returns. *)
Theorem C7_unsupported_response_type request p :
  request_params request = inr p ->
  (response_type_mismatch p = true ->
   exists errors, model_validate' p = inl (ValidationError errors))
  /\ forall errors,
       model_validate' p = inl (ValidationError errors) ->
       let kind := if response_type_mismatch p
                   then unsupported_response_type else invalid_request in
       classify_validation_error errors = kind
       /\ forall w,
            handle_try' request (initial w) =
            error_response' kind (Some (stringify_pydantic_error errors)) true
                            (parsed p w)
            /\ forall resp f,
                 handle_try' request (initial w) = (inr resp, f) ->
                 resp = deliver (mkErrorResponse kind
                                   (Some (stringify_pydantic_error errors))
                                   None (state f))
                                (target_of f).
Proof.
  intros Hp. split.
  - intros Hm. eexists. apply mismatch_fails. assumption.
  - intros errors Hv kind.
    assert (Hk : classify_validation_error errors = kind).
    { pose proof (model_validate_inl _ Hv) as E. inversion E; subst errors.
      apply classify_field_errors. }
    split; [assumption |]. intros w.
    rewrite (handle_try_invalid request w Hp Hv), Hk.
    split; [reflexivity |].
    intros resp f H. apply error_response_inv in H as (_ & _ & _ & Hd).
    + apply Hd. reflexivity.
    + intros u Hu. discriminate Hu.
Qed.

(** ** The paths of the handler, one by one *)

Ltac unrouter :=
  unfold error_response, load_client, load_redirect_uri,
    load_raw_redirect_uri, load_state, build_response.

Lemma optional_str_best_effort name p v :
  Pydantic.optional_str name p = inr v ->
  v = best_effort_extract_string name (Some p).
Proof.
  unfold Pydantic.optional_str, best_effort_extract_string.
  destruct (params_get name p) as [[s |] |]; intros H; inversion H; reflexivity.
Qed.

Lemma required_str_best_effort name p v :
  Pydantic.required_str name p = inr v ->
  best_effort_extract_string name (Some p) = Some v.
Proof.
  unfold Pydantic.required_str, best_effort_extract_string.
  destruct (params_get name p) as [[s |] |]; intros H; inversion H; reflexivity.
Qed.

Lemma valid_no_mismatch p a :
  model_validate' p = inr a -> response_type_mismatch p = false.
Proof.
  intros H. destruct (response_type_mismatch p) eqn:E; [| reflexivity].
  apply mismatch_fails in E. congruence.
Qed.

(** C6. When the client resolves, the redirect URI validates and the scope
    is rejected, the handler returns a 302 redirect whose target is the
    validated redirect URI with [error=invalid_scope], the rejection message
    and the original [state] (when there is one) appended as query fields;
    a query string already on that URI is kept, in front of the new fields. *)
Theorem C6_invalid_scope_redirect request p a cl u message w w1 :
  request_params request = inr p ->
  model_validate' p = inr a ->
  get_client (ar_client_id a) w = (inr (Some cl), w1) ->
  validate_redirect_uri cl (ar_redirect_uri a) = inr u ->
  validate_scope cl (ar_scope a) = inl (InvalidScopeError message) ->
  let original_state := best_effort_extract_string "state" (Some p) in
  let fields :=
    ([("error", "invalid_scope"); ("error_description", message)]
     ++ match original_state with
        | Some s => [("state", s)]
        | None => []
        end)%list in
  handle' request w =
  (inr (RedirectResponse (construct_redirect_uri (url_str u) fields)
                         302 no_store),
   mkFrame original_state (Some u) (ClientObj cl) (Some p) w1 [])
  /\ (Str.is_empty (UrlLib.query (UrlLib.urlparse (url_str u))) = false ->
      construct_redirect_uri (url_str u) fields =
      UrlLib.unparse_head (UrlLib.urlparse (url_str u))
      ++ "?" ++ UrlLib.query (UrlLib.urlparse (url_str u))
      ++ "&" ++ UrlLib.urlencode fields
      ++ UrlLib.unparse_tail (UrlLib.urlparse (url_str u))).
Proof.
  intros Hp Hv Hg Hr Hs original_state fields. split.
  - pose proof (model_validate_inr _ Hv) as (_ & _ & _ & _ & Hst & _).
    apply optional_str_best_effort in Hst.
    subst fields original_state. rewrite <- Hst.
    unfold handle, handle_m, handle_try. rewrite read_params_eq, Hp.
    unmonad. cbn. rewrite Hv. cbn. rewrite Hg. cbn. rewrite Hr. cbn.
    rewrite Hs. unrouter. unmonad. cbn.
    destruct (ar_state a) as [s |] eqn:Es; cbn.
    + reflexivity.
    + change (match params_get "state" p with
              | Some (StrValue value) => Some value
              | _ => None
              end)
        with (best_effort_extract_string "state" (Some p)).
      rewrite <- Hst. reflexivity.
  - apply construct_redirect_uri_keeps_query.
Qed.




Lemma best_effort_get name p v :
  best_effort_extract_string name (Some p) = Some v ->
  params_get name p = Some (StrValue v).
Proof.
  unfold best_effort_extract_string.
  destruct (params_get name p) as [[s |] |]; intros H; inversion H; reflexivity.
Qed.

(** C4, as the code has it.  When the [client_id] of the request does not
    resolve to a known client, the handler returns the error as a JSON body
    with status 400 and never a redirect, whatever [redirect_uri] was
    supplied; the error is [invalid_request], except that a [response_type]
    that is present and is not ["code"] has already made it
    [unsupported_response_type]. *)
Theorem C4_unknown_client_direct request p client_id w :
  request_params request = inr p ->
  best_effort_extract_string "client_id" (Some p) = Some client_id ->
  (forall w', fst (get_client client_id w') = inr None) ->
  exists error_resp f,
    handle' request w = (inr (PydanticJSONResponse 400 error_resp no_store), f)
    /\ aer_error error_resp =
       (if response_type_mismatch p
        then unsupported_response_type else invalid_request)
    /\ established f = false.
Proof.
  intros Hp Hcid Hnone.
  pose proof (best_effort_get _ _ Hcid) as Hget.
  unfold handle, handle_m, handle_try. rewrite read_params_eq, Hp.
  unmonad. cbn.
  destruct (model_validate' p) as [e | a] eqn:Hv.
  - pose proof (model_validate_inl _ Hv) as ->. cbn.
    unrouter. unmonad. cbn. rewrite Hget. cbn.
    destruct client_id as [| c0 rest]; cbn.
    + destruct (params_get "state" p) as [[sv |] |] eqn:Est; cbn;
        rewrite ?Est;
        (do 2 eexists; split; [reflexivity |]; split; [| reflexivity];
         cbn; apply classify_field_errors).
    + destruct (get_client (String c0 rest) w) as [r w'] eqn:Hg.
      pose proof (Hnone w) as Hn. rewrite Hg in Hn. cbn in Hn. subst r. cbn.
      destruct (params_get "state" p) as [[sv |] |] eqn:Est; cbn;
        rewrite ?Est;
        (do 2 eexists; split; [reflexivity |]; split; [| reflexivity];
         cbn; apply classify_field_errors).
  - pose proof (model_validate_inr _ Hv) as (Hc & _).
    apply required_str_best_effort in Hc. rewrite Hcid in Hc.
    inversion Hc; subst client_id. clear Hc.
    rewrite (valid_no_mismatch _ Hv). cbn.
    destruct (get_client (ar_client_id a) w) as [r w'] eqn:Hg.
    pose proof (Hnone w) as Hn. rewrite Hg in Hn. cbn in Hn. subst r. cbn.
    unrouter. unmonad. cbn.
    destruct (ar_state a) as [sv |]; cbn;
      [| destruct (params_get "state" p) as [[sv |] |]; cbn ];
      (do 2 eexists; split; [reflexivity |]; split; reflexivity).
Qed.

(** C5, as the code has it.  When the error router runs with no client
    held and recovery permitted, and the raw [client_id] is a non-empty
    text, it calls the resolver; a failure the resolver raises there is not
    swallowed: it leaves the client unknown, no response is built, and the
    exception propagates out of [error_response] with the variables
    otherwise as they were. *)
Theorem C5_resolver_failure_propagates error description
  (f : Frame World Client) p client_id e w' :
  client f = ClientNone ->
  params f = Some p ->
  best_effort_extract_string "client_id" (Some p) = Some client_id ->
  client_id <> "" ->
  get_client client_id (world f) = (inl e, w') ->
  error_response' error description true f =
  (inl e, mkFrame (state f) (redirect_uri f) ClientNone (params f) w' (log f)).
Proof.
  destruct f as [st ru cl pr w lg]. cbn. intros -> -> Hcid Hne Hg.
  apply best_effort_get in Hcid.
  unrouter. unmonad. cbn. rewrite Hcid.
  destruct client_id as [| c0 rest]; [contradiction |].
  cbn. rewrite Hg. reflexivity.
Qed.

#[local] Arguments best_effort_extract_string : simpl never.
#[local] Arguments AnyHttpUrlModel_model_validate : simpl never.

(** C2, where the code falls short of it.  A request whose raw
    [redirect_uri] is present but is not a URL (a text that does not parse,
    or a value that is not a text), sent for a client the resolver knows:
    the schema validation fails, the error router recovers the client, and
    the validation of the raw [redirect_uri], which stands outside the
    router's [try], raises; the catch-all of [handle] enters the router
    again, the same validation raises again, and the exception leaves
    [handle].  No response is returned. *)
Theorem C2_unparseable_redirect_uri_escapes request p client_id cl w w1 e :
  request_params request = inr p ->
  best_effort_extract_string "client_id" (Some p) = Some client_id ->
  client_id <> "" ->
  get_client client_id w = (inr (Some cl), w1) ->
  params_contains "redirect_uri" p = true ->
  AnyHttpUrlModel_model_validate parse_http_url
    (best_effort_extract_string "redirect_uri" (Some p)) = inl e ->
  handle' request w =
  (inl e,
   mkFrame (best_effort_extract_string "state" (Some p)) None (ClientObj cl)
           (Some p) w1 [unexpected]).
Proof.
  intros Hp Hcid Hne Hg Hin Hbad.
  assert (Hv : model_validate' p =
               inl (ValidationError (field_errors parse_http_url p))).
  { destruct (model_validate' p) as [e' | a] eqn:E.
    - apply model_validate_inl in E. congruence.
    - exfalso. apply model_validate_inr in E as (_ & E & _).
      unfold redirect_uri_field in E. unfold params_contains in Hin.
      unfold AnyHttpUrlModel_model_validate, best_effort_extract_string in Hbad.
      destruct (params_get "redirect_uri" p) as [[s |] |]; try discriminate.
      destruct (parse_http_url s); discriminate. }
  unfold handle, handle_m, try_except.
  rewrite (handle_try_invalid request w Hp Hv).
  unrouter. unmonad. unfold parsed. cbn.
  rewrite Hcid. destruct client_id as [| c0 rest]; [contradiction |].
  cbn. rewrite Hg. cbn. rewrite Hin. cbn. rewrite Hbad. cbn.
  rewrite Hin. cbn. rewrite Hbad. reflexivity.
Qed.

(** ** More of the handler: what every outcome has in common *)

(** Once the parameters are read, the router keeps [params] and leaves in
    [state] the [state] text of the raw parameters. *)
Lemma error_response_state error description attempt f0 r f1 p :
  error_response' error description attempt f0 = (r, f1) ->
  params f0 = Some p ->
  state f0 = best_effort_extract_string "state" (Some p) ->
  params f1 = Some p
  /\ state f1 = best_effort_extract_string "state" (Some p).
Proof.
  unfold error_response. intros H Hp Hs.
  apply bind_inv in H as [(a & fa & Ha & H) | (e & Ha & ->)];
    apply load_client_inv in Ha as (Hs1 & _ & Hp1 & _);
    [| split; congruence].
  apply bind_inv in H as [(b & fb & Hb & H) | (e & Hb & ->)];
    apply load_redirect_uri_inv in Hb as (Hs2 & _ & Hp2 & _);
    [| split; congruence].
  unfold bind in H. rewrite load_state_eq, build_response_eq in H.
  inversion H; subst; clear H. cbn.
  split; [congruence |].
  rewrite Hs2, Hs1, Hs, Hp2, Hp1, Hp.
  destruct (best_effort_extract_string "state" (Some p)); reflexivity.
Qed.

Ltac use_router_state p :=
  match goal with
  | H : error_response _ _ _ _ _ _ _ = (_, _) |- _ =>
      apply error_response_state with (p := p) in H;
      [ destruct H as (? & ?) | reflexivity | cbn; congruence ]
  end.

Lemma handle_try_echo request p w r f :
  request_params request = inr p ->
  handle_try' request (initial w) = (r, f) ->
  params f = Some p
  /\ state f = best_effort_extract_string "state" (Some p).
Proof.
  intros Hp. unfold handle_try. rewrite read_params_eq, Hp. unmonad. cbn.
  destruct (model_validate' p) as [e | a] eqn:Hv.
  - intros H. destruct e; cbn in H;
      try (inversion H; subst; cbn; auto; fail).
    use_router_state p. auto.
  - pose proof (model_validate_inr _ Hv) as (_ & _ & _ & _ & Hst & _).
    apply optional_str_best_effort in Hst. rewrite Hst. cbn.
    intros H.
    repeat (first [ use_router_state p | case_step ]); cbn; auto.
Qed.

(** A response of the [try] body is an error delivered with the [state]
    held, or the delegate's redirect. *)
Lemma handle_try_shape request w r f :
  handle_try' request (initial w) = (r, f) ->
  forall resp, r = inr resp ->
    (exists error description,
       resp = deliver (mkErrorResponse error description None (state f))
                      (target_of f))
    \/ delegate_redirect authorize f resp.
Proof.
  unfold handle_try, read_params, initial. unmonad. cbn.
  intros H.
  repeat (first [ use_router | case_step ]).
  all: intros resp Hresp; try discriminate Hresp.
  all: try (left; do 2 eexists;
            match goal with
            | H : forall _, _ = _ -> _ /\ _ |- _ => apply H
            end; eauto; fail).
  all: inversion Hresp; subst; right; cbn.
  all: do 6 eexists;
    (split; [ reflexivity | split; [ reflexivity | ] ]);
    (split; [ | split; [ eassumption | reflexivity ] ]); reflexivity.
Qed.

(** The handler logs at most once, and exactly when the body of its [try]
    raised; what it returns after that is [server_error]. *)
Theorem handle_logs_once_then_server_error request w r f :
  handle' request w = (r, f) ->
  (log f = []
   /\ handle_try' request (initial w) = (r, f)
   /\ exists resp, r = inr resp)
  \/ (log f = [unexpected]
      /\ (exists e f0, handle_try' request (initial w) = (inl e, f0))
      /\ forall resp,
           r = inr resp ->
           resp = deliver (mkErrorResponse server_error
                             (Some "An unexpected error occurred") None
                             (state f))
                          (target_of f)).
Proof.
  unfold handle, handle_m, try_except.
  destruct (handle_try' request (initial w)) as [[e | resp0] f1] eqn:Ht;
    pose proof (handle_try_inv _ _ Ht) as ((V & Hlog) & _).
  - unfold bind, logger_exception. intros H. right.
    apply error_response_inv in H as (_ & _ & Hl & Hd).
    + cbn in Hl. rewrite Hlog in Hl. split; [assumption |].
      split; [eauto |]. intros resp Hr. apply Hd. assumption.
    + intros u Hu. cbn in Hu. destruct (V u Hu) as (c & raw & ? & ?).
      exists c, raw. cbn. auto.
  - intros H. inversion H; subst. left. eauto.
Qed.

(** Every response of the handler carries the header
    [Cache-Control: no-store]. *)
Theorem every_response_is_no_store request w resp f :
  handle' request w = (inr resp, f) ->
  headers_of resp = [("Cache-Control", "no-store")].
Proof.
  intros H. apply handle_inv in H as (_ & Hr).
  destruct (Hr resp eq_refl) as [(er & ->) | D].
  - unfold deliver. destruct (target_of f); reflexivity.
  - destruct D as (c & u & ap & w0 & w1 & url & _ & _ & _ & _ & ->).
    reflexivity.
Qed.

(** Whatever goes wrong once the parameters are read, the error response
    echoes the [state] text of the raw parameters (and no [state] when there
    is none or it is not a text), by redirect and by JSON body alike. *)
Theorem error_responses_echo_state request p w resp f :
  request_params request = inr p ->
  handle' request w = (inr resp, f) ->
  (exists error description,
     resp = deliver (mkErrorResponse error description None
                       (best_effort_extract_string "state" (Some p)))
                    (target_of f))
  \/ delegate_redirect authorize f resp.
Proof.
  intros Hp. unfold handle, handle_m, try_except.
  destruct (handle_try' request (initial w)) as [[e | resp0] f1] eqn:Ht;
    pose proof (handle_try_echo request w Hp Ht) as (Hpar & Hst);
    pose proof (handle_try_inv _ _ Ht) as ((V & _) & _).
  - unfold bind, logger_exception. intros H.
    pose proof H as H'.
    apply error_response_state with (p := p) in H' as (_ & Hst'); [| exact Hpar | exact Hst].
    apply error_response_inv in H as (_ & _ & _ & Hd).
    + left. do 2 eexists. rewrite <- Hst'. apply Hd. reflexivity.
    + intros u Hu. cbn in Hu. destruct (V u Hu) as (c & raw & ? & ?).
      exists c, raw. cbn. auto.
  - intros H. inversion H; subst.
    destruct (handle_try_shape _ _ Ht eq_refl) as [(er & d & E) | D]; [| auto].
    left. exists er, d. rewrite <- Hst. exact E.
Qed.

(** ** More of the handler: the remaining paths *)

(** The candidate the router reads back from the raw parameters is the one
    the validated request held. *)
Lemma load_raw_redirect_uri_valid p a st ru cl w lg :
  model_validate' p = inr a ->
  load_raw_redirect_uri parse_http_url
    (mkFrame st ru cl (Some p) w lg : Frame World Client)
  = (inr (ar_redirect_uri a), mkFrame st ru cl (Some p) w lg).
Proof.
  intros Hv. apply model_validate_inr in Hv as (_ & Hr & _).
  unfold redirect_uri_field in Hr.
  unfold load_raw_redirect_uri, params_contains, best_effort_extract_string,
    AnyHttpUrlModel_model_validate.
  unmonad. cbn.
  destruct (params_get "redirect_uri" p) as [[s |] |]; cbn.
  - destruct (parse_http_url s); inversion Hr; reflexivity.
  - discriminate Hr.
  - inversion Hr; reflexivity.
Qed.

#[local] Arguments load_raw_redirect_uri : simpl never.

Ltac by_state :=
  cbv zeta; cbn;
  match goal with
  | |- context [best_effort_extract_string "state" (Some ?p)] =>
      destruct (best_effort_extract_string "state" (Some p)) eqn:Est;
      cbn; rewrite ?Est; reflexivity
  end.

Ltac enter_valid Hp Hv Hst :=
  unfold handle, handle_m, handle_try;
  rewrite read_params_eq, Hp; unmonad; cbn;
  rewrite Hv; cbn; rewrite Hst.

(** End to end: a request that passes the schema, whose client resolves and
    whose redirect URI and scope validate, reaches the delegate with the raw
    [state], the validated scopes, the raw [code_challenge] and the
    validated redirect URI; the response is a 302 to the URL the delegate
    returns, as it is, and nothing is logged. *)
Theorem valid_request_reaches_delegate request p a cl u scopes url w w1 w2 :
  request_params request = inr p ->
  model_validate' p = inr a ->
  get_client (ar_client_id a) w = (inr (Some cl), w1) ->
  validate_redirect_uri cl (ar_redirect_uri a) = inr u ->
  validate_scope cl (ar_scope a) = inr scopes ->
  let original_state := best_effort_extract_string "state" (Some p) in
  authorize cl
    (mkAuthorizationParams original_state scopes (ar_code_challenge a) u) w1
  = (inr url, w2) ->
  handle' request w =
  (inr (RedirectResponse url 302 [("Cache-Control", "no-store")]),
   mkFrame original_state (Some u) (ClientObj cl) (Some p) w2 [])
  /\ best_effort_extract_string "code_challenge" (Some p)
     = Some (ar_code_challenge a)
  /\ best_effort_extract_string "client_id" (Some p) = Some (ar_client_id a).
Proof.
  intros Hp Hv Hg Hr Hs original_state Ha.
  pose proof (model_validate_inr _ Hv) as (Hc & _ & _ & Hcc & Hst & _).
  apply optional_str_best_effort in Hst.
  apply required_str_best_effort in Hc, Hcc.
  split; [| auto].
  enter_valid Hp Hv Hst.
  rewrite Hg. cbn. rewrite Hr. cbn. rewrite Hs. cbn.
  fold original_state. rewrite Ha. reflexivity.
Qed.

(** A redirect URI the client rejects: the error is [invalid_request] with
    the validator's message, as a JSON body with status 400 and never as a
    redirect; the router's attempt to recover a redirect URI asks the
    validator the same question and gets the same refusal. *)
Theorem rejected_redirect_uri_is_direct request p a cl message w w1 :
  request_params request = inr p ->
  model_validate' p = inr a ->
  get_client (ar_client_id a) w = (inr (Some cl), w1) ->
  validate_redirect_uri cl (ar_redirect_uri a)
  = inl (InvalidRedirectUriError message) ->
  let original_state := best_effort_extract_string "state" (Some p) in
  handle' request w =
  (inr (PydanticJSONResponse 400
          (mkErrorResponse invalid_request (Some message) None original_state)
          [("Cache-Control", "no-store")]),
   mkFrame original_state None (ClientObj cl) (Some p) w1 []).
Proof.
  intros Hp Hv Hg Hr original_state.
  pose proof (model_validate_inr _ Hv) as (_ & _ & _ & _ & Hst & _).
  apply optional_str_best_effort in Hst.
  enter_valid Hp Hv Hst.
  rewrite Hg. cbn. rewrite Hr. cbn.
  unfold error_response, load_client, load_redirect_uri, load_state,
    build_response.
  unmonad. cbn.
  erewrite load_raw_redirect_uri_valid by exact Hv. rewrite Hr. cbn.
  subst original_state. by_state.
Qed.

(** An [AuthorizeError] of the delegate goes back to the client: a 302 to
    the validated redirect URI with the delegate's error code and
    description and the raw [state]; nothing is logged. *)
Theorem authorize_error_is_redirected request p a cl u scopes error
  description w w1 w2 :
  request_params request = inr p ->
  model_validate' p = inr a ->
  get_client (ar_client_id a) w = (inr (Some cl), w1) ->
  validate_redirect_uri cl (ar_redirect_uri a) = inr u ->
  validate_scope cl (ar_scope a) = inr scopes ->
  let original_state := best_effort_extract_string "state" (Some p) in
  authorize cl
    (mkAuthorizationParams original_state scopes (ar_code_challenge a) u) w1
  = (inl (AuthorizeError error description), w2) ->
  handle' request w =
  (inr (RedirectResponse
          (construct_redirect_uri (url_str u)
             (error_fields
                (mkErrorResponse error description None original_state)))
          302 [("Cache-Control", "no-store")]),
   mkFrame original_state (Some u) (ClientObj cl) (Some p) w2 []).
Proof.
  intros Hp Hv Hg Hr Hs original_state Ha.
  pose proof (model_validate_inr _ Hv) as (_ & _ & _ & _ & Hst & _).
  apply optional_str_best_effort in Hst.
  enter_valid Hp Hv Hst.
  rewrite Hg. cbn. rewrite Hr. cbn. rewrite Hs. cbn.
  fold original_state. rewrite Ha. cbn.
  unrouter. unmonad. subst original_state. by_state.
Qed.

(** A fault after the redirect URI is validated (the scope validator
    raising anything but [InvalidScopeError], or the delegate raising
    anything but [AuthorizeError]) is logged once and reported to the client
    as [server_error] by a 302 to the validated redirect URI. *)
Theorem late_fault_is_server_error_redirect request p a cl u e w w1 w2 :
  request_params request = inr p ->
  model_validate' p = inr a ->
  get_client (ar_client_id a) w = (inr (Some cl), w1) ->
  validate_redirect_uri cl (ar_redirect_uri a) = inr u ->
  let original_state := best_effort_extract_string "state" (Some p) in
  (validate_scope cl (ar_scope a) = inl e
   /\ (forall m, e <> InvalidScopeError m) /\ w2 = w1)
  \/ (exists scopes,
        validate_scope cl (ar_scope a) = inr scopes
        /\ authorize cl
             (mkAuthorizationParams original_state scopes
                                    (ar_code_challenge a) u) w1
           = (inl e, w2)
        /\ forall c d, e <> AuthorizeError c d) ->
  handle' request w =
  (inr (RedirectResponse
          (construct_redirect_uri (url_str u)
             (error_fields
                (mkErrorResponse server_error
                   (Some "An unexpected error occurred") None
                   original_state)))
          302 [("Cache-Control", "no-store")]),
   mkFrame original_state (Some u) (ClientObj cl) (Some p) w2 [unexpected]).
Proof.
  intros Hp Hv Hg Hr original_state Hfault.
  pose proof (model_validate_inr _ Hv) as (_ & _ & _ & _ & Hst & _).
  apply optional_str_best_effort in Hst.
  enter_valid Hp Hv Hst.
  rewrite Hg. cbn. rewrite Hr. cbn.
  destruct Hfault as [(Hs & Hne & ->) | (scopes & Hs & Ha & Hne)].
  - rewrite Hs.
    destruct e; try (exfalso; eapply Hne; reflexivity); cbn;
      unrouter; unmonad; subst original_state; by_state.
  - rewrite Hs. cbn. fold original_state. rewrite Ha.
    destruct e; try (exfalso; eapply Hne; reflexivity); cbn;
      unrouter; unmonad; subst original_state; by_state.
Qed.

(** A fault of [validate_redirect_uri] that is neither of the two
    exceptions the router swallows is not turned into a response: the
    catch-all enters the router, the router asks the validator again, and
    the exception leaves [handle]. *)
Theorem redirect_validator_fault_escapes request p a cl e w w1 :
  request_params request = inr p ->
  model_validate' p = inr a ->
  get_client (ar_client_id a) w = (inr (Some cl), w1) ->
  validate_redirect_uri cl (ar_redirect_uri a) = inl e ->
  (forall m, e <> InvalidRedirectUriError m) ->
  (forall errors, e <> ValidationError errors) ->
  handle' request w =
  (inl e,
   mkFrame (best_effort_extract_string "state" (Some p)) None (ClientObj cl)
           (Some p) w1 [unexpected]).
Proof.
  intros Hp Hv Hg Hr Hne1 Hne2.
  pose proof (model_validate_inr _ Hv) as (_ & _ & _ & _ & Hst & _).
  apply optional_str_best_effort in Hst.
  enter_valid Hp Hv Hst.
  rewrite Hg. cbn. rewrite Hr.
  destruct e; try (exfalso; eapply Hne1; reflexivity);
    try (exfalso; eapply Hne2; reflexivity); cbn;
    unfold error_response, load_client, load_redirect_uri;
    unmonad; cbn;
    erewrite load_raw_redirect_uri_valid by exact Hv; rewrite Hr;
    reflexivity.
Qed.

(** When the resolver fails on a request that passed the schema, the
    catch-all makes the router call it a second time with the same
    [client_id] (unless that is the empty text).  If the second call finds
    no client, the answer is [server_error] as a JSON body; if it fails too,
    its exception leaves [handle]. *)
Theorem resolver_fault_is_retried_once request p a e1 w w1 w2 :
  request_params request = inr p ->
  model_validate' p = inr a ->
  ar_client_id a <> "" ->
  get_client (ar_client_id a) w = (inl e1, w1) ->
  let original_state := best_effort_extract_string "state" (Some p) in
  (get_client (ar_client_id a) w1 = (inr None, w2) ->
   handle' request w =
   (inr (PydanticJSONResponse 400
           (mkErrorResponse server_error
              (Some "An unexpected error occurred") None original_state)
           [("Cache-Control", "no-store")]),
    mkFrame original_state None ClientNone (Some p) w2 [unexpected]))
  /\ (forall e2,
        get_client (ar_client_id a) w1 = (inl e2, w2) ->
        handle' request w =
        (inl e2,
         mkFrame original_state None ClientNone (Some p) w2 [unexpected])).
Proof.
  intros Hp Hv Hne Hg original_state.
  pose proof (model_validate_inr _ Hv) as (Hc & _ & _ & _ & Hst & _).
  apply optional_str_best_effort in Hst.
  apply required_str_best_effort in Hc.
  assert (Hpre : handle' request w =
                 error_response' server_error
                   (Some "An unexpected error occurred") true
                   (mkFrame original_state None ClientNone (Some p) w1
                            [unexpected])).
  { enter_valid Hp Hv Hst. rewrite Hg. reflexivity. }
  rewrite Hpre. unrouter. unmonad. cbn. rewrite Hc.
  destruct (ar_client_id a) as [| c0 rest] eqn:Ecid; [contradiction |].
  cbn. split.
  - intros H2. rewrite H2. subst original_state. by_state.
  - intros e2 H2. rewrite H2. reflexivity.
Qed.

(** ** More of the schema *)

Lemma model_validate_inr_method p a :
  model_validate' p = inr a ->
  Pydantic.default_literal "code_challenge_method" "S256" p
  = inr (ar_code_challenge_method a).
Proof.
  unfold AuthorizationRequest_model_validate. cbv zeta.
  repeat match goal with
         | |- match ?x with inl _ => _ | inr _ => _ end = _ -> _ => destruct x
         end;
    intros H; inversion H; reflexivity.
Qed.

(** What a validated request holds is what the raw parameters held: the
    texts of [client_id], [code_challenge], [state] and [scope] as they
    came, the literals [code] and [S256], and for [redirect_uri] the parsed
    URL of the raw text, or nothing when the parameter is absent. *)
Theorem validated_request_reflects_raw p a :
  model_validate' p = inr a ->
  best_effort_extract_string "client_id" (Some p) = Some (ar_client_id a)
  /\ best_effort_extract_string "code_challenge" (Some p)
     = Some (ar_code_challenge a)
  /\ best_effort_extract_string "response_type" (Some p) = Some "code"
  /\ ar_response_type a = "code"
  /\ ar_code_challenge_method a = "S256"
  /\ (params_get "code_challenge_method" p = None
      \/ params_get "code_challenge_method" p = Some (StrValue "S256"))
  /\ ar_state a = best_effort_extract_string "state" (Some p)
  /\ ar_scope a = best_effort_extract_string "scope" (Some p)
  /\ match ar_redirect_uri a with
     | None => params_contains "redirect_uri" p = false
     | Some u =>
         exists s, params_get "redirect_uri" p = Some (StrValue s)
                   /\ parse_http_url s = inr u
     end.
Proof.
  intros Hv.
  pose proof (model_validate_inr_method _ Hv) as Hm.
  apply model_validate_inr in Hv as (Hc & Hr & Ht & Hcc & Hst & Hsc).
  repeat split.
  - apply required_str_best_effort. assumption.
  - apply required_str_best_effort. assumption.
  - unfold Pydantic.required_literal in Ht.
    unfold best_effort_extract_string.
    destruct (params_get "response_type" p) as [[s |] |]; try discriminate.
    destruct (String.eqb_spec s "code"); [subst; reflexivity | discriminate].
  - unfold Pydantic.required_literal in Ht.
    destruct (params_get "response_type" p) as [[s |] |]; try discriminate.
    destruct (String.eqb_spec s "code"); [| discriminate].
    congruence.
  - unfold Pydantic.default_literal in Hm.
    destruct (params_get "code_challenge_method" p) as [[s |] |];
      try discriminate; [| inversion Hm; reflexivity].
    destruct (String.eqb_spec s "S256"); [| discriminate].
    congruence.
  - unfold Pydantic.default_literal in Hm.
    destruct (params_get "code_challenge_method" p) as [[s |] |];
      try discriminate; [| auto].
    destruct (String.eqb_spec s "S256"); [subst; auto | discriminate].
  - apply optional_str_best_effort. assumption.
  - apply optional_str_best_effort. assumption.
  - unfold redirect_uri_field in Hr. unfold params_contains.
    destruct (params_get "redirect_uri" p) as [[s |] |].
    + destruct (parse_http_url s) as [k | u] eqn:E; inversion Hr; eauto.
    + discriminate Hr.
    + inversion Hr; reflexivity.
Qed.

(** A request that fails the schema never reaches the delegate: what the
    handler returns for it is an error, of the kind the validation gave or
    [server_error]. *)
Lemma invalid_request_is_refused request p ex w resp f :
  request_params request = inr p ->
  model_validate' p = inl ex ->
  handle' request w = (inr resp, f) ->
  exists kind description,
    resp = deliver (mkErrorResponse kind description None
                      (best_effort_extract_string "state" (Some p)))
                   (target_of f)
    /\ (kind = (if response_type_mismatch p
                then unsupported_response_type else invalid_request)
        \/ kind = server_error).
Proof.
  intros Hp Hv.
  pose proof (model_validate_inl _ Hv) as ->.
  unfold handle, handle_m, try_except.
  rewrite (handle_try_invalid request w Hp Hv), classify_field_errors.
  match goal with
  | |- context [error_response' ?k ?d true (parsed p w)] =>
      destruct (error_response' k d true (parsed p w)) as [[e | r1] f1] eqn:E1
  end.
  - unfold bind, logger_exception. intros H.
    pose proof E1 as E1'.
    apply error_response_state with (p := p) in E1' as (Hp1 & Hs1);
      [| reflexivity | reflexivity].
    apply error_response_inv in E1 as (V1 & _); [| intros u Hu; discriminate Hu].
    pose proof H as H'.
    apply error_response_state with (p := p) in H' as (_ & Hs2);
      [| exact Hp1 | exact Hs1].
    apply error_response_inv in H as (_ & _ & _ & Hd).
    + do 2 eexists. split; [| right; reflexivity].
      rewrite <- Hs2. apply Hd. reflexivity.
    + intros u Hu. cbn in Hu. destruct (V1 u Hu) as (c & raw & ? & ?).
      exists c, raw. cbn. auto.
  - intros H. inversion H; subst. clear H.
    pose proof E1 as E1'.
    apply error_response_state with (p := p) in E1' as (_ & Hs1);
      [| reflexivity | reflexivity].
    apply error_response_inv in E1 as (_ & _ & _ & Hd);
      [| intros u Hu; discriminate Hu].
    do 2 eexists. split; [| left; reflexivity].
    rewrite <- Hs1. apply Hd. reflexivity.
Qed.

(** PKCE is not optional.  A request without a text [code_challenge], or
    with a [code_challenge_method] that is present and is not [S256], fails
    the schema, and the handler never answers it with the delegate's
    redirect: the response is an error, [invalid_request] unless the
    [response_type] rule or the catch-all decides otherwise. *)
Theorem request_without_pkce_is_refused request p w :
  request_params request = inr p ->
  best_effort_extract_string "code_challenge" (Some p) = None
  \/ (exists v, params_get "code_challenge_method" p = Some v
                /\ v <> StrValue "S256") ->
  model_validate' p = inl (ValidationError (field_errors parse_http_url p))
  /\ forall resp f,
       handle' request w = (inr resp, f) ->
       exists kind description,
         resp = deliver (mkErrorResponse kind description None
                           (best_effort_extract_string "state" (Some p)))
                        (target_of f)
         /\ (kind = (if response_type_mismatch p
                     then unsupported_response_type else invalid_request)
             \/ kind = server_error).
Proof.
  intros Hp Hbad.
  assert (Hv : model_validate' p
               = inl (ValidationError (field_errors parse_http_url p))).
  { destruct (model_validate' p) as [e | a] eqn:E.
    - apply model_validate_inl in E. congruence.
    - exfalso. pose proof (model_validate_inr_method _ E) as Hm.
      apply model_validate_inr in E as (_ & _ & _ & Hcc & _).
      destruct Hbad as [Hnone | (v & Hget & Hne)].
      + apply required_str_best_effort in Hcc. congruence.
      + unfold Pydantic.default_literal in Hm. rewrite Hget in Hm.
        destruct v as [s |]; [| discriminate].
        destruct (String.eqb_spec s "S256"); [| discriminate].
        subst. contradiction. }
  split; [assumption |].
  intros resp f H. eapply invalid_request_is_refused; eassumption.
Qed.

(** ** Non-[GET] requests *)

(** Whatever [handle] ends with, parameters that were read are the ones
    held in [params], and [state] holds their [state] text. *)
Lemma handle_echo request p w r f :
  request_params request = inr p ->
  handle' request w = (r, f) ->
  params f = Some p
  /\ state f = best_effort_extract_string "state" (Some p).
Proof.
  intros Hp. unfold handle, handle_m, try_except.
  destruct (handle_try' request (initial w)) as [[e | resp0] f1] eqn:Ht;
    pose proof (handle_try_echo request w Hp Ht) as (Hpar & Hst).
  - unfold bind, logger_exception. intros H.
    apply error_response_state with (p := p) in H; [exact H | exact Hpar | exact Hst].
  - intros H. inversion H; subst. auto.
Qed.

(** C10. A request whose method is anything but [GET] has its parameters
    read from the form body, and no method is refused.  When reading the
    body raises, the answer is [server_error] as a JSON body.  When the
    body gives the parameters [p], the handler does exactly what it does
    for a [GET] whose query string holds [p]: [p] is what it holds in
    [params] at the end and the [state] it echoes is that of [p]; a [p]
    that fails the schema enters the error router from [p] with the kind
    [p] decides; a valid [p] whose [client_id] is unknown is answered with
    that [client_id] in the message.  The query string and the method take
    no part: two non-[GET] requests with the same body have the same
    outcome. *)
Theorem C10_non_get_reads_form request :
  method request <> "GET" ->
  request_params request = form request
  /\ @read_params World Client request = lift (form request)
  /\ (forall request' w,
        method request' <> "GET" ->
        form request' = form request ->
        handle' request' w = handle' request w)
  /\ (forall e w,
        form request = inl e ->
        handle' request w =
        (inr (PydanticJSONResponse 400
                (mkErrorResponse server_error
                                 (Some "An unexpected error occurred")
                                 None None)
                no_store),
         mkFrame None None ClientNone None w [unexpected]))
  /\ (forall p w,
        form request = inr p ->
        let original_state := best_effort_extract_string "state" (Some p) in
        handle' request w = handle' (mkRequest "GET" p (form request)) w
        /\ (forall r f,
              handle' request w = (r, f) ->
              params f = Some p /\ state f = original_state)
        /\ (forall errors,
              model_validate' p = inl (ValidationError errors) ->
              handle_try' request (initial w) =
              error_response' (classify_validation_error errors)
                              (Some (stringify_pydantic_error errors)) true
                              (parsed p w))
        /\ (forall a w1,
              model_validate' p = inr a ->
              get_client (ar_client_id a) w = (inr None, w1) ->
              handle' request w =
              (inr (PydanticJSONResponse 400
                      (mkErrorResponse invalid_request
                         (Some (client_not_found (ar_client_id a))) None
                         original_state)
                      no_store),
               mkFrame original_state None ClientNone (Some p) w1 []))).
Proof.
  intros Hm.
  assert (E : forall r, method r <> "GET" -> request_params r = form r).
  { intros r Hr. unfold request_params.
    destruct (String.eqb_spec (method r) "GET"); [contradiction | reflexivity]. }
  split; [auto |]. split; [rewrite read_params_eq, E; auto |].
  split; [| split].
  - intros request' w Hm' Hf.
    unfold handle, handle_m, handle_try.
    rewrite !read_params_eq, !E, Hf by assumption. reflexivity.
  - intros e w He.
    unfold handle, handle_m, handle_try.
    rewrite read_params_eq, E, He by assumption. reflexivity.
  - intros p w Hf original_state.
    assert (Hp : request_params request = inr p) by (rewrite E; assumption).
    split; [| split; [| split]].
    + unfold handle, handle_m, handle_try.
      rewrite !read_params_eq, Hp. reflexivity.
    + intros r f H. exact (handle_echo request w Hp H).
    + intros errors Hv. exact (handle_try_invalid request w Hp Hv).
    + intros a w1 Hv Hg.
      pose proof (model_validate_inr _ Hv) as (_ & _ & _ & _ & Hst & _).
      apply optional_str_best_effort in Hst.
      enter_valid Hp Hv Hst.
      rewrite Hg. cbn. unrouter. unmonad. subst original_state. by_state.
Qed.

End HandlerProofs.

(* ===================================================================== *)
(** * The handler run on the concrete provider *)
(* ===================================================================== *)

Ltac run := vm_compute; reflexivity.

(** The response to [bad_scope] is a redirect, and both a client and a
    redirect URI are held when it is built. *)
Lemma C1_witness :
  exists resp f,
    Example.run Example.bad_scope = (inr resp, f)
    /\ (is_redirect resp = true <-> established f = true).
Proof.
  eexists. eexists.
  match goal with
  | |- ?A /\ _ => assert (H : A) by run
  end.
  split; [exact H |].
  exact (proj1 (C1_redirect_iff_client_and_validated_uri
                  Example.parse_http_url Example.stringify Example.get_client
                  Example.validate_redirect_uri Example.validate_scope
                  Example.authorize Example.bad_scope 0 H)).
Defined.

(** A body that cannot be parsed: [server_error], as JSON, with status 400. *)
Lemma C9_witness :
  exists resp f,
    Example.run Example.broken_body = (inr resp, f)
    /\ status_code_of resp = (if is_redirect resp then 302 else 400).
Proof.
  eexists. eexists.
  match goal with
  | |- ?A /\ _ => assert (H : A) by run
  end.
  split; [exact H |].
  exact (proj1 (proj1 (C9_non_redirect_status_400
                         Example.parse_http_url Example.stringify
                         Example.get_client Example.validate_redirect_uri
                         Example.validate_scope Example.authorize
                         Example.broken_body 0) _ _ H)).
Defined.

(** A [PUT] is served from its body. *)
Lemma C10_witness :
  request_params Example.put_good = form Example.put_good
  /\ Example.run Example.put_good
     = Example.run (mkRequest "DELETE" [] (form Example.put_good)).
Proof.
  assert (Hput : method Example.put_good <> "GET") by (cbn; discriminate).
  assert (Hdel : method (mkRequest "DELETE" [] (form Example.put_good)) <> "GET")
    by (cbn; discriminate).
  pose proof (C10_non_get_reads_form
                (World := Example.world) (Client := Example.client_info)
                Example.parse_http_url Example.stringify Example.get_client
                Example.validate_redirect_uri Example.validate_scope
                Example.authorize Example.put_good Hput) as (H1 & _ & H3 & _).
  split; [exact H1 |].
  symmetry. exact (H3 _ 0 Hdel eq_refl).
Defined.

(** [response_type=token] fails the validation. *)
Lemma C7_witness :
  exists errors,
    AuthorizationRequest_model_validate Example.parse_http_url
      (query_params Example.unknown_client_token)
    = inl (ValidationError errors).
Proof.
  assert (Hp : request_params Example.unknown_client_token
               = inr (query_params Example.unknown_client_token)) by reflexivity.
  assert (Hm : response_type_mismatch (query_params Example.unknown_client_token)
               = true) by reflexivity.
  exact (proj1 (C7_unsupported_response_type
                  (World := Example.world) (Client := Example.client_info)
                  Example.parse_http_url Example.stringify Example.get_client
                  Example.validate_redirect_uri Example.validate_scope
                  Example.authorize Example.unknown_client_token Hp) Hm).
Defined.

(** The rejected scope of [bad_scope] comes back on the client's redirect
    URI, after the [foo=1] it already had. *)
Lemma C6_witness :
  fst (Example.run Example.bad_scope) =
  inr (RedirectResponse
         "https://app.example/cb?foo=1&error=invalid_scope&error_description=Client+was+not+registered+with+scope&state=xyz"
         302 [("Cache-Control", "no-store")]).
Proof.
  pose proof (C6_invalid_scope_redirect
                Example.parse_http_url Example.stringify Example.get_client
                Example.validate_redirect_uri Example.validate_scope
                Example.authorize Example.bad_scope 0
                (p := query_params Example.bad_scope)
                (a := mkAuthorizationRequest "c1"
                        (Some (mkUrl "https://app.example/cb?foo=1")) "code"
                        "E9Melhoa2OwvFrEMTJguCHaoeK1t8URWbuGJSstw-cM" "S256"
                        (Some "xyz") (Some "admin"))
                (cl := Example.c1)
                (u := mkUrl "https://app.example/cb?foo=1")
                (message := "Client was not registered with scope")
                (w1 := 1)
                eq_refl eq_refl eq_refl eq_refl eq_refl) as (H & _).
  unfold Example.run. rewrite H. run.
Defined.



(** An unknown client that asks for [response_type=token]: the error of the
    JSON body is [unsupported_response_type], not [invalid_request]. *)
Lemma C4_counterexample :
  (forall w, fst (Example.get_client "nobody" w) = inr None)
  /\ fst (Example.run Example.unknown_client_token) =
     inr (PydanticJSONResponse 400
            (mkErrorResponse unsupported_response_type
                             (Some "response_type: literal_error") None None)
            [("Cache-Control", "no-store")]).
Proof. split; [intros w; reflexivity | run]. Qed.

(** An unknown client in a well-formed request: JSON, [invalid_request]. *)
Lemma C4_witness :
  exists error_resp f,
    Example.run Example.unknown_client
    = (inr (PydanticJSONResponse 400 error_resp no_store), f)
    /\ aer_error error_resp = invalid_request
    /\ established f = false.
Proof.
  exact (C4_unknown_client_direct
           Example.parse_http_url Example.stringify Example.get_client
           Example.validate_redirect_uri Example.validate_scope
           Example.authorize Example.unknown_client
           (p := query_params Example.unknown_client)
           (client_id := "nobody") 0
           eq_refl eq_refl (fun w => eq_refl)).
Defined.

(** The resolver fails while the router recovers the client of a request
    that did not pass the validation: the failure leaves [handle]. *)
Lemma C5_counterexample :
  (exists errors,
     AuthorizationRequest_model_validate Example.parse_http_url
       (query_params Example.resolver_fails) = inl (ValidationError errors))
  /\ fst (Example.run Example.resolver_fails)
     = inl (OtherException "ConnectionError").
Proof. split; [eexists; run | run]. Qed.

(** The same failure, seen from inside the router. *)
Lemma C5_witness :
  error_response Example.parse_http_url Example.get_client
                 Example.validate_redirect_uri
                 invalid_request None true
                 (parsed (query_params Example.resolver_fails) 0)
  = (inl (OtherException "ConnectionError"),
     mkFrame (Some "xyz") None ClientNone
             (Some (query_params Example.resolver_fails)) 1 []).
Proof.
  assert (Hne : "boom" <> "") by discriminate.
  exact (C5_resolver_failure_propagates
           Example.parse_http_url Example.get_client
           Example.validate_redirect_uri invalid_request None
           (parsed (query_params Example.resolver_fails) 0)
           (p := query_params Example.resolver_fails)
           (client_id := "boom") (e := OtherException "ConnectionError")
           (w' := 1)
           eq_refl eq_refl eq_refl Hne eq_refl).
Defined.

(** [redirect_uri=not a url] for the known client [c1]: pydantic's
    [ValidationError] leaves [handle]. *)
Lemma C2_witness :
  Example.run Example.garbage_redirect =
  (inl (ValidationError [mkErrorDetails [] "url_parsing"]),
   mkFrame None None (ClientObj Example.c1)
           (Some (query_params Example.garbage_redirect)) 1
           ["Unexpected error in authorization_handler"]).
Proof.
  assert (Hne : "c1" <> "") by discriminate.
  exact (C2_unparseable_redirect_uri_escapes
           Example.parse_http_url Example.stringify Example.get_client
           Example.validate_redirect_uri Example.validate_scope
           Example.authorize Example.garbage_redirect 0
           (p := query_params Example.garbage_redirect)
           (client_id := "c1") (cl := Example.c1) (w1 := 1)
           (e := ValidationError [mkErrorDetails [] "url_parsing"])
           eq_refl eq_refl Hne eq_refl eq_refl eq_refl).
Defined.

(** The general shape of the composed URI, at the URI of the example. *)
Lemma C8_witness :
  create_error_redirect
    (mkUrl "https://app.example/cb?foo=1")
    (IsErrorResponse (mkErrorResponse invalid_scope None None (Some "xyz")))
  = "https://app.example/cb" ++ "?" ++ "foo=1" ++ "&"
    ++ "error=invalid_scope&state=xyz" ++ "".
Proof.
  exact (proj1 (proj2 C8_create_error_redirect_appends)
           (mkUrl "https://app.example/cb?foo=1")
           (IsErrorResponse (mkErrorResponse invalid_scope None None (Some "xyz")))
           eq_refl).
Defined.

(* ===================================================================== *)
(** * Properties of [ResourceTemplate.matches] *)
(* ===================================================================== *)

Module TemplateFacts.
Import Template.

Lemma at_end_cases s :
  at_end s = true <-> s = "" \/ s = String "010" "".
Proof.
  split.
  - destruct s as [| c [| c' s']]; cbn; intros H; auto; [| discriminate].
    apply Ascii.eqb_eq in H. subst. auto.
  - intros [-> | ->]; reflexivity.
Qed.

Lemma mem_app c a b : Str.mem c (a ++ b) = Str.mem c a || Str.mem c b.
Proof.
  induction a as [| x a IH]; cbn; [reflexivity |].
  rewrite IH. apply orb_assoc.
Qed.

(** What [munch] finds is a split of the text after a run without [/]. *)
Lemma munch_sound {R} (k : string -> string -> option R) s :
  forall taken r,
    munch k taken s = Some r ->
    exists v tail,
      s = v ++ tail /\ Str.mem "/" v = false
      /\ k (taken ++ v) tail = Some r.
Proof.
  induction s as [| c rest IH]; intros taken r; cbn.
  - intros H. exists "", "". rewrite (append_empty_r taken). repeat split; auto.
  - destruct (Ascii.eqb c "/") eqn:Ec.
    + intros H. exists "", (String c rest). rewrite (append_empty_r taken). repeat split; auto.
    + destruct (munch k (taken ++ String c "") rest) as [r' |] eqn:Em.
      * intros H. inversion H; subst r'. clear H.
        apply IH in Em as (v & tail & -> & Hv & Hk).
        exists (String c v), tail. cbn. rewrite Ec.
        rewrite append_assoc in Hk. cbn in Hk. repeat split; auto.
      * intros H. exists "", (String c rest). rewrite (append_empty_r taken). repeat split; auto.
Qed.

(** [munch] finds a match whenever some split after a run without [/]
    gives one. *)
Lemma munch_complete {R} (k : string -> string -> option R) v :
  forall taken tail,
    Str.mem "/" v = false ->
    k (taken ++ v) tail <> None ->
    munch k taken (v ++ tail) <> None.
Proof.
  induction v as [| c v IH]; intros taken tail Hv Hk.
  - rewrite append_empty_r in Hk. cbn.
    destruct tail as [| c rest]; cbn; [assumption |].
    destruct (Ascii.eqb c "/"); [assumption |].
    destruct (munch k (taken ++ String c "") rest); [discriminate | assumption].
  - cbn in Hv. apply orb_false_iff in Hv as (Hc & Hv).
    cbn. rewrite Hc.
    specialize (IH (taken ++ String c "") tail Hv).
    rewrite append_assoc in IH. cbn in IH. specialize (IH Hk).
    destruct (munch k (taken ++ String c "") (v ++ tail));
      [discriminate | contradiction].
Qed.

(** When what follows the run is the end of the text or a [/], the whole
    run is what [munch] takes. *)
Lemma munch_exact {R} (k : string -> string -> option R) v :
  forall taken tail r,
    Str.mem "/" v = false ->
    tail = "" \/ (exists rest, tail = String "/" rest) ->
    k (taken ++ v) tail = Some r ->
    munch k taken (v ++ tail) = Some r.
Proof.
  induction v as [| c v IH]; intros taken tail r Hv Ht Hk.
  - rewrite append_empty_r in Hk. cbn.
    destruct Ht as [-> | (rest & ->)]; cbn; assumption.
  - cbn in Hv. apply orb_false_iff in Hv as (Hc & Hv).
    cbn. rewrite Hc.
    rewrite (IH (taken ++ String c "") tail r Hv Ht); [reflexivity |].
    rewrite append_assoc. cbn. assumption.
Qed.

Lemma match_nodes_sound nodes :
  forall s d,
    match_nodes nodes s = Some d ->
    map fst d = names nodes
    /\ Forall (fun v => segment v = true) (map snd d)
    /\ exists tail, at_end tail = true
                    /\ s = render nodes (map snd d) ++ tail.
Proof.
  induction nodes as [| [c | name] rest IH]; intros s d; cbn.
  - destruct (at_end s) eqn:E; [| discriminate].
    intros H. inversion H; subst. cbn. repeat split; auto. exists s. auto.
  - destruct s as [| c' s']; [discriminate |].
    destruct (Ascii.eqb_spec c' c); [subst c' | discriminate].
    intros H. apply IH in H as (Hn & Hv & tail & Ht & ->).
    repeat split; auto. exists tail. auto.
  - destruct s as [| c s']; [discriminate |].
    destruct (Ascii.eqb c "/") eqn:Ec; [discriminate |].
    intros H. apply munch_sound in H as (v & tail & -> & Hv & Hk).
    destruct (match_nodes rest tail) as [d' |] eqn:Em; [| discriminate].
    cbn in Hk. inversion Hk; subst d. clear Hk.
    apply IH in Em as (Hn & Hvs & tail' & Ht & ->).
    cbn. repeat split.
    + congruence.
    + constructor; [| assumption].
      unfold segment. cbn. rewrite Ec, Hv. reflexivity.
    + exists tail'. split; [assumption |].
      rewrite append_assoc. reflexivity.
Qed.

Lemma segment_inv v :
  segment v = true ->
  exists c v', v = String c v' /\ Ascii.eqb c "/" = false
               /\ Str.mem "/" v' = false.
Proof.
  unfold segment. destruct v as [| c v']; cbn; [discriminate |].
  intros H. exists c, v'.
  destruct (Ascii.eqb c "/"); [discriminate |].
  destruct (Str.mem "/" v'); [discriminate | auto].
Qed.

Lemma match_nodes_complete nodes :
  forall values tail,
    length values = length (names nodes) ->
    Forall (fun v => segment v = true) values ->
    at_end tail = true ->
    match_nodes nodes (render nodes values ++ tail) <> None.
Proof.
  induction nodes as [| [c | name] rest IH]; intros values tail Hl Hv Ht; cbn.
  - rewrite Ht. discriminate.
  - rewrite Ascii.eqb_refl. apply IH; assumption.
  - destruct values as [| v vs]; [discriminate Hl |].
    inversion Hv as [| ? ? Hseg Hvs]; subst.
    apply segment_inv in Hseg as (c & v' & -> & Hc & Hv').
    cbn. rewrite Hc. rewrite append_assoc.
    apply munch_complete; [assumption |].
    cbn in Hl. injection Hl as Hl.
    specialize (IH vs tail Hl Hvs Ht).
    destruct (match_nodes rest (render rest vs ++ tail));
      [discriminate | contradiction].
Qed.

Lemma match_nodes_exact nodes :
  forall values,
    slash_delimited nodes = true ->
    length values = length (names nodes) ->
    Forall (fun v => segment v = true) values ->
    match_nodes nodes (render nodes values)
    = Some (combine (names nodes) values).
Proof.
  induction nodes as [| [c | name] rest IH]; intros values Hd Hl Hv; cbn.
  - reflexivity.
  - rewrite Ascii.eqb_refl. apply IH; assumption.
  - destruct values as [| v vs]; [discriminate Hl |].
    inversion Hv as [| ? ? Hseg Hvs]; subst.
    apply segment_inv in Hseg as (c & v' & -> & Hc & Hv').
    cbn in Hl. injection Hl as Hl.
    assert (Hd' : slash_delimited rest = true).
    { cbn in Hd. destruct rest as [| [c' | n'] rest']; try discriminate;
        [reflexivity |].
      apply andb_true_iff in Hd as (_ & Hd). exact Hd. }
    cbn. rewrite Hc.
    apply munch_exact; [assumption | |].
    + cbn in Hd. destruct rest as [| [c' | n'] rest']; try discriminate;
        [left; reflexivity |].
      apply andb_true_iff in Hd as (Hs & _). apply Ascii.eqb_eq in Hs.
      subst c'. right. cbn. eauto.
    + rewrite (IH vs Hd' Hl Hvs). reflexivity.
Qed.

(** ** From the template to the nodes *)

Lemma replace_char_app old new a b :
  replace_char old new (a ++ b)
  = replace_char old new a ++ replace_char old new b.
Proof.
  induction a as [| c a IH]; cbn; [reflexivity |].
  rewrite IH, append_assoc. reflexivity.
Qed.

Lemma replace_char_absent old new s :
  Str.mem old s = false -> replace_char old new s = s.
Proof.
  induction s as [| c s IH]; cbn; [reflexivity |].
  intros H. apply orb_false_iff in H as (Hc & Hs).
  rewrite Hc, IH by assumption. reflexivity.
Qed.

Lemma identifier_char_plain c :
  identifier_char c = true ->
  Ascii.eqb c "{" = false /\ Ascii.eqb c "}" = false
  /\ Ascii.eqb c ">" = false.
Proof.
  destruct c as [[] [] [] [] [] [] [] []]; cbn; intros H;
    try discriminate H; auto.
Qed.

Lemma identifier_chars name :
  identifier name = true -> Str.forallb identifier_char name = true.
Proof.
  destruct name as [| c rest]; cbn; [discriminate |].
  intros H. apply andb_true_iff in H as (Hc & Hr). rewrite Hr.
  unfold identifier_start in Hc. unfold identifier_char.
  apply orb_true_iff in Hc as [Hc | Hc]; rewrite Hc; cbn;
    rewrite ?orb_true_r; reflexivity.
Qed.

Lemma identifier_no_brace old name :
  old = "{"%char \/ old = "}"%char ->
  Str.forallb identifier_char name = true -> Str.mem old name = false.
Proof.
  intros Ho. induction name as [| c rest IH]; cbn; [reflexivity |].
  intros H. apply andb_true_iff in H as (Hc & Hr).
  rewrite (IH Hr). apply identifier_char_plain in Hc as (H1 & H2 & _).
  destruct Ho as [-> | ->]; rewrite ?H1, ?H2; reflexivity.
Qed.

Lemma special_plain c :
  special c = false ->
  Ascii.eqb c "{" = false /\ Ascii.eqb c "}" = false
  /\ Ascii.eqb c "(" = false.
Proof.
  destruct c as [[] [] [] [] [] [] [] []]; cbn; intros H;
    try discriminate H; auto.
Qed.

Lemma uri_pattern_template_of nodes :
  forall seen,
    well_formed_from seen nodes = true ->
    uri_pattern (template_of nodes) = pattern_of nodes.
Proof.
  unfold uri_pattern.
  induction nodes as [| [c | name] rest IH]; intros seen Hw; cbn.
  - reflexivity.
  - cbn in Hw. apply andb_true_iff in Hw as (Hc & Hw).
    apply negb_true_iff in Hc. apply special_plain in Hc as (H1 & H2 & _).
    rewrite H1. cbn. rewrite H2. cbn. rewrite (IH seen Hw). reflexivity.
  - cbn in Hw. apply andb_true_iff in Hw as (Hn & Hw).
    apply andb_true_iff in Hn as (Hid & _).
    apply identifier_chars in Hid.
    rewrite !replace_char_app.
    rewrite (@replace_char_absent "{" "(?P<" name
               (@identifier_no_brace "{" name (or_introl eq_refl) Hid)).
    cbn. rewrite ?replace_char_app.
    rewrite (@replace_char_absent "}" ">[^/]+)" name
               (@identifier_no_brace "}" name (or_intror eq_refl) Hid)).
    cbn. rewrite (IH _ Hw). reflexivity.
Qed.

Lemma parse_name seen name :
  forall so_far tl,
    Str.forallb identifier_char name = true ->
    parse (Name so_far) seen (name ++ String ">" tl)
    = parse (Name (so_far ++ name)) seen (String ">" tl).
Proof.
  induction name as [| c rest IH]; intros so_far tl H.
  - rewrite append_empty_r. reflexivity.
  - cbn in H. apply andb_true_iff in H as (Hc & Hr).
    apply identifier_char_plain in Hc as (_ & _ & Hc).
    cbn [append parse]. rewrite Hc. rewrite (IH _ _ Hr).
    rewrite append_assoc. reflexivity.
Qed.

Lemma parse_pattern_of nodes :
  forall seen,
    well_formed_from seen nodes = true ->
    parse Text seen (pattern_of nodes) = Some nodes.
Proof.
  induction nodes as [| [c | name] rest IH]; intros seen Hw.
  - reflexivity.
  - cbn in Hw. apply andb_true_iff in Hw as (Hc & Hw).
    apply negb_true_iff in Hc.
    pose proof (special_plain c Hc) as (_ & _ & Hp).
    cbn. rewrite Hp, Hc, (IH seen Hw). reflexivity.
  - cbn in Hw. apply andb_true_iff in Hw as (Hn & Hw).
    apply andb_true_iff in Hn as (Hid & Hseen).
    cbn [pattern_of]. cbn [append parse Ascii.eqb Bool.eqb].
    cbn.
    change (String ">" ("[^/]+)" ++ pattern_of rest))
      with (String ">" (String "[" (String "^" (String "/" (String "]"
             (String "+" (String ")" (pattern_of rest)))))))).
    rewrite (parse_name seen name "" _ (identifier_chars name Hid)).
    cbn. rewrite Hid, Hseen. cbn. rewrite (IH _ Hw). reflexivity.
Qed.

Lemma re_compile_template_of nodes :
  well_formed nodes = true ->
  re_compile (uri_pattern (template_of nodes)) = Some nodes.
Proof.
  intros Hw. unfold re_compile.
  rewrite (uri_pattern_template_of nodes [] Hw).
  apply parse_pattern_of. exact Hw.
Qed.

End TemplateFacts.

Import Template TemplateFacts.

Lemma segment_spec v :
  segment v = true <-> v <> "" /\ Str.mem "/" v = false.
Proof.
  unfold segment. destruct v as [| c v']; cbn.
  - split; [discriminate | intros (H & _); contradiction].
  - destruct (Ascii.eqb c "/" || Str.mem "/" v'); cbn;
      split; try discriminate; auto.
    + intros (_ & H). discriminate H.
    + intros _. split; [discriminate | reflexivity].
Qed.

Lemma matches_compiled uri_template nodes uri :
  re_compile (uri_pattern uri_template) = Some nodes ->
  matches uri_template uri = Some (match_nodes nodes uri).
Proof. unfold matches. intros ->. reflexivity. Qed.

(** Inside the fragment, that is, for a template written with literal
    characters that are not special in a regular expression and with
    [{name}] placeholders whose names are identifiers, all different: what
    [matches] returns for a URI that matches has one value for each
    placeholder of the template, in order, and every value is a non-empty
    text without [/]. *)
Theorem matches_values_are_segments nodes uri d :
  well_formed nodes = true ->
  matches (template_of nodes) uri = Some (Some d) ->
  map fst d = names nodes
  /\ Forall (fun v => v <> "" /\ Str.mem "/" v = false) (map snd d).
Proof.
  intros Hw H.
  rewrite (matches_compiled _ uri (re_compile_template_of nodes Hw)) in H.
  inversion H as [Hm]. apply match_nodes_sound in Hm as (Hn & Hv & _).
  split; [assumption |].
  eapply Forall_impl; [| exact Hv]. intros v. apply segment_spec.
Qed.

(** Inside the fragment, from a match back to the URI: putting the values
    returned in place of the placeholders gives the URI, or the URI without
    the newline that ends it. *)
Theorem matches_round_trip nodes uri d :
  well_formed nodes = true ->
  matches (template_of nodes) uri = Some (Some d) ->
  uri = render nodes (map snd d)
  \/ uri = render nodes (map snd d) ++ String "010" "".
Proof.
  intros Hw H.
  rewrite (matches_compiled _ uri (re_compile_template_of nodes Hw)) in H.
  inversion H as [Hm].
  apply match_nodes_sound in Hm as (_ & _ & tail & Ht & ->).
  apply at_end_cases in Ht as [-> | ->]; [left | right]; auto.
  rewrite append_empty_r. reflexivity.
Qed.

(** Inside the fragment, every instance of a template matches it: when
    each placeholder is given a non-empty value without [/], the URI this
    gives is matched, and so is that URI followed by one newline. *)
Theorem matches_every_instance nodes values :
  well_formed nodes = true ->
  length values = length (names nodes) ->
  Forall (fun v => v <> "" /\ Str.mem "/" v = false) values ->
  (exists d, matches (template_of nodes) (render nodes values)
             = Some (Some d))
  /\ (exists d, matches (template_of nodes)
                        (render nodes values ++ String "010" "")
                = Some (Some d)).
Proof.
  intros Hw Hl Hv.
  pose proof (re_compile_template_of nodes Hw) as Hc.
  assert (Hv' : Forall (fun v => segment v = true) values).
  { eapply Forall_impl; [| exact Hv]. intros v. apply segment_spec. }
  split.
  - pose proof (@match_nodes_complete nodes values "" Hl Hv' eq_refl) as H.
    rewrite append_empty_r in H. rewrite (matches_compiled _ _ Hc).
    destruct (match_nodes nodes (render nodes values)) as [d |];
      [eauto | contradiction].
  - pose proof (@match_nodes_complete nodes values (String "010" "") Hl Hv'
                  eq_refl) as H.
    rewrite (matches_compiled _ _ Hc).
    destruct (match_nodes nodes (render nodes values ++ String "010" ""))
      as [d |]; [eauto | contradiction].
Qed.

(** Inside the fragment, from the values to the match and back: when every
    placeholder of the template is followed by [/] or ends the template,
    the URI built from non-empty values without [/] gives back exactly those
    values, each under its name. *)
Theorem matches_returns_the_values nodes values :
  well_formed nodes = true ->
  slash_delimited nodes = true ->
  length values = length (names nodes) ->
  Forall (fun v => v <> "" /\ Str.mem "/" v = false) values ->
  matches (template_of nodes) (render nodes values)
  = Some (Some (combine (names nodes) values)).
Proof.
  intros Hw Hd Hl Hv.
  rewrite (matches_compiled _ _ (re_compile_template_of nodes Hw)). f_equal.
  apply match_nodes_exact; try assumption.
  eapply Forall_impl; [| exact Hv]. intros v. apply segment_spec.
Qed.

Lemma render_literal nodes :
  names nodes = [] -> render nodes [] = template_of nodes.
Proof.
  induction nodes as [| [c | name] rest IH]; cbn; intros H.
  - reflexivity.
  - rewrite (IH H). reflexivity.
  - discriminate H.
Qed.

(** Inside the fragment: a template without placeholders, written with
    characters that are not special in a regular expression, matches
    itself, itself followed by one newline, and nothing else. *)
Theorem literal_template_matches_itself nodes uri :
  well_formed nodes = true ->
  names nodes = [] ->
  matches (template_of nodes) uri = Some (Some [])
  <-> (uri = template_of nodes
       \/ uri = template_of nodes ++ String "010" "").
Proof.
  intros Hw Hn.
  rewrite (matches_compiled _ uri (re_compile_template_of nodes Hw)).
  split.
  - intros H. inversion H as [Hm].
    apply match_nodes_sound in Hm as (_ & _ & tail & Ht & ->).
    cbn. rewrite (render_literal nodes Hn).
    apply at_end_cases in Ht as [-> | ->]; [left | right]; auto.
    rewrite append_empty_r. reflexivity.
  - intros Hu.
    assert (Ht : exists tail, at_end tail = true
                              /\ uri = render nodes [] ++ tail).
    { rewrite (render_literal nodes Hn).
      destruct Hu as [-> | ->]; [exists "" | exists (String "010" "")];
        split; auto.
      rewrite append_empty_r. reflexivity. }
    destruct Ht as (tail & Ht & ->).
    assert (Hl : length (@nil string) = length (names nodes))
      by (rewrite Hn; reflexivity).
    pose proof (@match_nodes_complete nodes [] tail Hl (Forall_nil _) Ht) as H.
    destruct (match_nodes nodes (render nodes [] ++ tail)) as [d |] eqn:Em;
      [| contradiction].
    apply match_nodes_sound in Em as (Hd & _).
    rewrite Hn in Hd. destruct d; [reflexivity | discriminate Hd].
Qed.

(** The two replacements make a named group of every [{name}] and leave the
    rest as it is: for a template written with characters that are not
    special in a regular expression and with [{name}] placeholders whose
    names are identifiers, all different, [matches] is the match against
    exactly these literals and groups. *)
Theorem template_text_compiles nodes uri :
  well_formed nodes = true ->
  uri_pattern (template_of nodes) = pattern_of nodes
  /\ matches (template_of nodes) uri = Some (match_nodes nodes uri).
Proof.
  intros Hw. split.
  - exact (uri_pattern_template_of nodes [] Hw).
  - apply matches_compiled. apply re_compile_template_of. exact Hw.
Qed.

(* ===================================================================== *)
(** * More of [create_error_redirect] *)
(* ===================================================================== *)

Lemma is_empty_app_sep a c b : Str.is_empty (a ++ String c b) = false.
Proof. destruct a; reflexivity. Qed.

Lemma urlencode_not_empty kv rest :
  Str.is_empty (UrlLib.urlencode (kv :: rest)) = false.
Proof.
  unfold UrlLib.urlencode. cbn [List.map Str.join].
  destruct (List.map _ rest); [| rewrite append_assoc]; apply is_empty_app_sep.
Qed.

Lemma error_query_params_cons error :
  exists kv rest, error_query_params error = kv :: rest.
Proof.
  destruct error as [r | code msg |]; cbn; eauto.
Qed.

(** On a redirect URI without a query string the fields become the query:
    the result is the base up to its fragment, [?], the encoded fields, and
    the fragment, with no [&] in front. *)
Theorem create_error_redirect_starts_query redirect_uri error :
  Str.is_empty (UrlLib.query (UrlLib.urlparse (url_str redirect_uri))) = true ->
  create_error_redirect redirect_uri error =
  UrlLib.unparse_head (UrlLib.urlparse (url_str redirect_uri))
  ++ "?" ++ UrlLib.urlencode (error_query_params error)
  ++ UrlLib.unparse_tail (UrlLib.urlparse (url_str redirect_uri)).
Proof.
  intros Hq. unfold create_error_redirect. rewrite Hq. cbn [negb].
  destruct (error_query_params_cons error) as (kv & rest & ->).
  unfold UrlLib.urlunparse, UrlLib.unparse_tail.
  rewrite unparse_head_replace_query.
  cbn [UrlLib.query UrlLib.fragment UrlLib.replace_query].
  rewrite urlencode_not_empty.
  destruct (Str.is_empty (UrlLib.fragment _)).
  - rewrite append_empty_r. reflexivity.
  - rewrite !append_assoc. reflexivity.
Qed.

Lemma forallb_app p a b :
  Str.forallb p (a ++ b) = Str.forallb p a && Str.forallb p b.
Proof.
  induction a as [| c a IH]; cbn; [reflexivity |].
  rewrite IH. apply andb_assoc.
Qed.

Lemma count_app c a b :
  Chars.count c (a ++ b) = Chars.count c a + Chars.count c b.
Proof.
  induction a as [| x a IH]; cbn; [reflexivity |].
  rewrite IH. apply Nat.add_assoc.
Qed.

Lemma quote_plus_char_facts c :
  Str.forallb Chars.quoted (UrlLib.quote_plus_char c) = true
  /\ Chars.count "=" (UrlLib.quote_plus_char c) = 0
  /\ Chars.count "&" (UrlLib.quote_plus_char c) = 0.
Proof.
  destruct c as [[] [] [] [] [] [] [] []]; vm_compute; auto.
Qed.

Lemma quote_plus_facts s :
  Str.forallb Chars.quoted (UrlLib.quote_plus s) = true
  /\ Chars.count "=" (UrlLib.quote_plus s) = 0
  /\ Chars.count "&" (UrlLib.quote_plus s) = 0.
Proof.
  induction s as [| c s (IH1 & IH2 & IH3)]; cbn; [auto |].
  destruct (quote_plus_char_facts c) as (H1 & H2 & H3).
  rewrite forallb_app, !count_app, H1, H2, H3, IH1, IH2, IH3. auto.
Qed.

Lemma quoted_encoded s :
  Str.forallb Chars.quoted s = true -> Str.forallb Chars.encoded s = true.
Proof.
  induction s as [| c s IH]; cbn; [reflexivity |].
  intros H. apply andb_true_iff in H as (Hc & Hs).
  rewrite (IH Hs).
  assert (Hc' : Chars.encoded c = true)
    by (unfold Chars.encoded; rewrite Hc; reflexivity).
  rewrite Hc'. reflexivity.
Qed.

Lemma field_facts k v :
  Chars.field_ok (UrlLib.quote_plus k ++ "=" ++ UrlLib.quote_plus v).
Proof.
  destruct (quote_plus_facts k) as (K1 & K2 & K3).
  destruct (quote_plus_facts v) as (V1 & V2 & V3).
  unfold Chars.field_ok. rewrite forallb_app, !count_app. cbn.
  rewrite (quoted_encoded _ K1), (quoted_encoded _ V1), K2, K3, V2, V3.
  auto.
Qed.

Lemma join_facts l :
  Forall Chars.field_ok l ->
  Str.forallb Chars.encoded (Str.join "&" l) = true
  /\ Chars.count "=" (Str.join "&" l) = length l
  /\ Chars.count "&" (Str.join "&" l) = pred (length l).
Proof.
  induction l as [| x rest IH]; intros Hl; [cbn; auto |].
  inversion Hl as [| ? ? (X1 & X2 & X3) Hrest]; subst.
  destruct rest as [| y rest'].
  - cbn. auto.
  - destruct (IH Hrest) as (I1 & I2 & I3).
    change (Str.join "&" (x :: y :: rest'))
      with (x ++ "&" ++ Str.join "&" (y :: rest')).
    rewrite forallb_app, !count_app.
    change ("&" ++ Str.join "&" (y :: rest'))
      with (String "&" (Str.join "&" (y :: rest'))).
    cbn [Str.forallb Chars.count].
    rewrite X1, X2, X3, I1, I2, I3.
    repeat split; reflexivity.
Qed.

Lemma urlencode_facts q :
  Str.forallb Chars.encoded (UrlLib.urlencode q) = true
  /\ Chars.count "=" (UrlLib.urlencode q) = length q
  /\ Chars.count "&" (UrlLib.urlencode q) = pred (length q).
Proof.
  unfold UrlLib.urlencode.
  rewrite <- (length_map
                (fun kv => UrlLib.quote_plus (fst kv) ++ "="
                           ++ UrlLib.quote_plus (snd kv)) q).
  apply join_facts. apply Forall_forall. intros f Hf.
  apply in_map_iff in Hf as ((k & v) & <- & _). apply field_facts.
Qed.

(** The query [create_error_redirect] appends is made of the always-safe
    characters, [+], [%], and the separators [=] and [&] only, with one [=]
    for each field and one [&] between two fields: no text of an error, a
    description or a state can add a field, end the query or start a
    fragment. *)
Theorem encoded_fields_stay_fields error :
  let fields := error_query_params error in
  let new_query := UrlLib.urlencode fields in
  Str.forallb Chars.encoded new_query = true
  /\ Chars.count "=" new_query = length fields
  /\ S (Chars.count "&" new_query) = length fields
  /\ Str.mem "#" new_query = false
  /\ Str.mem "?" new_query = false
  /\ Str.mem " " new_query = false.
Proof.
  intros fields new_query.
  destruct (urlencode_facts fields) as (H1 & H2 & H3).
  fold new_query in H1, H2, H3.
  assert (Hno : forall c, Chars.encoded c = false -> Str.mem c new_query = false).
  { intros c Hc. clear H2 H3. induction new_query as [| x s IH]; cbn;
      [reflexivity |].
    cbn in H1. apply andb_true_iff in H1 as (Hx & Hs). rewrite (IH Hs).
    destruct (Ascii.eqb_spec x c); [subst; congruence | reflexivity]. }
  repeat split; auto.
  destruct (error_query_params_cons error) as (kv & rest & E).
  subst fields. rewrite E in *. cbn in *. rewrite H3. reflexivity.
Qed.

(* ===================================================================== *)
(** * The further properties, run on concrete inputs *)
(* ===================================================================== *)

(** The resolver fails once: one log entry, and [server_error]. *)
Lemma handle_logs_once_then_server_error_witness :
  exists r f,
    Example.run Example.resolver_fails_once = (r, f)
    /\ log f = ["Unexpected error in authorization_handler"].
Proof.
  eexists. eexists.
  match goal with
  | |- ?A /\ _ => assert (H : A) by run
  end.
  split; [exact H |].
  destruct (handle_logs_once_then_server_error
              Example.parse_http_url Example.stringify Example.get_client
              Example.validate_redirect_uri Example.validate_scope
              Example.authorize Example.resolver_fails_once 0 H)
    as [(Hl & _) | (Hl & _)]; [discriminate Hl | exact Hl].
Defined.

Lemma every_response_is_no_store_witness :
  exists resp f,
    Example.run Example.broken_body = (inr resp, f)
    /\ headers_of resp = [("Cache-Control", "no-store")].
Proof.
  eexists. eexists.
  match goal with
  | |- ?A /\ _ => assert (H : A) by run
  end.
  split; [exact H |].
  pose proof (every_response_is_no_store
                Example.parse_http_url Example.stringify Example.get_client
                Example.validate_redirect_uri Example.validate_scope
                Example.authorize Example.broken_body 0 H) as H2.
  exact H2.
Defined.

Lemma error_responses_echo_state_witness :
  exists resp f,
    Example.run Example.missing_challenge = (inr resp, f)
    /\ ((exists error description,
           resp = deliver (mkErrorResponse error description None (Some "xyz"))
                          (target_of f))
        \/ delegate_redirect Example.authorize f resp).
Proof.
  eexists. eexists.
  match goal with
  | |- ?A /\ _ => assert (H : A) by run
  end.
  split; [exact H |].
  exact (error_responses_echo_state
           Example.parse_http_url Example.stringify Example.get_client
           Example.validate_redirect_uri Example.validate_scope
           Example.authorize Example.missing_challenge
           (p := query_params Example.missing_challenge) 0 eq_refl H).
Defined.

Lemma valid_request_reaches_delegate_witness :
  fst (Example.run Cases.plain) =
  inr (RedirectResponse "https://app.example/cb?foo=1&code=abc" 302
                        [("Cache-Control", "no-store")]).
Proof.
  pose proof (valid_request_reaches_delegate
                Example.parse_http_url Example.stringify Example.get_client
                Example.validate_redirect_uri Example.validate_scope
                Example.authorize Cases.plain 0
                (p := query_params Cases.plain) (a := Cases.plain_validated)
                (cl := Example.c1)
                (u := mkUrl "https://app.example/cb?foo=1")
                (scopes := []) (url := "https://app.example/cb?foo=1&code=abc")
                (w1 := 1) (w2 := 2)
                eq_refl eq_refl eq_refl eq_refl eq_refl eq_refl) as (H & _).
  unfold Example.run. rewrite H. reflexivity.
Defined.

Lemma rejected_redirect_uri_is_direct_witness :
  fst (Example.run Cases.unregistered) =
  inr (PydanticJSONResponse 400
         (mkErrorResponse invalid_request
            (Some "Redirect URI not registered for client") None (Some "xyz"))
         [("Cache-Control", "no-store")]).
Proof.
  pose proof (rejected_redirect_uri_is_direct
                Example.parse_http_url Example.stringify Example.get_client
                Example.validate_redirect_uri Example.validate_scope
                Example.authorize Cases.unregistered 0
                (p := query_params Cases.unregistered)
                (a := mkAuthorizationRequest "c1"
                        (Some (mkUrl "https://evil.example/cb")) "code" "abc"
                        "S256" (Some "xyz") None)
                (cl := Example.c1)
                (message := "Redirect URI not registered for client")
                (w1 := 1)
                eq_refl eq_refl eq_refl eq_refl) as H.
  unfold Example.run. rewrite H. reflexivity.
Defined.

Lemma authorize_error_is_redirected_witness :
  fst (Cases.run_with Example.validate_redirect_uri Cases.deny Cases.plain) =
  inr (RedirectResponse
         "https://app.example/cb?foo=1&error=access_denied&error_description=The+user+said+no&state=xyz"
         302 [("Cache-Control", "no-store")]).
Proof.
  pose proof (authorize_error_is_redirected
                Example.parse_http_url Example.stringify Example.get_client
                Example.validate_redirect_uri Example.validate_scope
                Cases.deny Cases.plain 0
                (p := query_params Cases.plain) (a := Cases.plain_validated)
                (cl := Example.c1)
                (u := mkUrl "https://app.example/cb?foo=1")
                (scopes := []) (error := access_denied)
                (description := Some "The user said no")
                (w1 := 1) (w2 := 2)
                eq_refl eq_refl eq_refl eq_refl eq_refl eq_refl) as H.
  unfold Cases.run_with. rewrite H. run.
Defined.

Lemma late_fault_is_server_error_redirect_witness :
  fst (Cases.run_with Example.validate_redirect_uri Cases.broken Cases.plain) =
  inr (RedirectResponse
         "https://app.example/cb?foo=1&error=server_error&error_description=An+unexpected+error+occurred&state=xyz"
         302 [("Cache-Control", "no-store")]).
Proof.
  assert (Hne : forall c d, OtherException "RuntimeError" <> AuthorizeError c d)
    by (intros c d; discriminate).
  pose proof (late_fault_is_server_error_redirect
                Example.parse_http_url Example.stringify Example.get_client
                Example.validate_redirect_uri Example.validate_scope
                Cases.broken Cases.plain 0
                (p := query_params Cases.plain) (a := Cases.plain_validated)
                (cl := Example.c1)
                (u := mkUrl "https://app.example/cb?foo=1")
                (e := OtherException "RuntimeError")
                (w1 := 1) (w2 := 2)
                eq_refl eq_refl eq_refl eq_refl
                (or_intror (ex_intro _ [] (conj eq_refl (conj eq_refl Hne)))))
    as H.
  unfold Cases.run_with. rewrite H. run.
Defined.

Lemma redirect_validator_fault_escapes_witness :
  fst (Cases.run_with Cases.broken_validator Example.authorize Cases.plain)
  = inl (OtherException "RuntimeError").
Proof.
  assert (Hne1 : forall m, OtherException "RuntimeError"
                           <> InvalidRedirectUriError m)
    by (intros m; discriminate).
  assert (Hne2 : forall errors, OtherException "RuntimeError"
                                <> ValidationError errors)
    by (intros m; discriminate).
  pose proof (redirect_validator_fault_escapes
                Example.parse_http_url Example.stringify Example.get_client
                Cases.broken_validator Example.validate_scope
                Example.authorize Cases.plain 0
                (p := query_params Cases.plain) (a := Cases.plain_validated)
                (cl := Example.c1) (e := OtherException "RuntimeError")
                (w1 := 1)
                eq_refl eq_refl eq_refl eq_refl Hne1 Hne2) as H.
  unfold Cases.run_with. rewrite H. reflexivity.
Defined.

Lemma resolver_fault_is_retried_once_witness :
  Example.run Cases.plain_boom =
  (inl (OtherException "ConnectionError"),
   mkFrame (Some "xyz") None ClientNone (Some (query_params Cases.plain_boom))
           2 ["Unexpected error in authorization_handler"]).
Proof.
  assert (Hne : "boom" <> "") by discriminate.
  pose proof (resolver_fault_is_retried_once
                Example.parse_http_url Example.stringify Example.get_client
                Example.validate_redirect_uri Example.validate_scope
                Example.authorize Cases.plain_boom 0
                (p := query_params Cases.plain_boom)
                (a := mkAuthorizationRequest "boom" None "code" "abc" "S256"
                        (Some "xyz") None)
                (e1 := OtherException "ConnectionError")
                (w1 := 1) 2
                eq_refl eq_refl Hne eq_refl) as (_ & H).
  exact (H (OtherException "ConnectionError") eq_refl).
Defined.

Lemma validated_request_reflects_raw_witness :
  ar_state Cases.plain_validated
  = best_effort_extract_string "state" (Some (query_params Cases.plain)).
Proof.
  pose proof (validated_request_reflects_raw
                Example.parse_http_url
                (query_params Cases.plain) (a := Cases.plain_validated)
                eq_refl) as (_ & _ & _ & _ & _ & _ & H & _).
  exact H.
Defined.

Lemma request_without_pkce_is_refused_witness :
  AuthorizationRequest_model_validate Example.parse_http_url
    (query_params Cases.plain_method)
  = inl (ValidationError
           (field_errors Example.parse_http_url
                         (query_params Cases.plain_method))).
Proof.
  assert (Hne : StrValue "plain" <> StrValue "S256") by discriminate.
  exact (proj1 (request_without_pkce_is_refused
                  Example.parse_http_url Example.stringify Example.get_client
                  Example.validate_redirect_uri Example.validate_scope
                  Example.authorize Cases.plain_method
                  (p := query_params Cases.plain_method) 0 eq_refl
                  (or_intror (ex_intro _ (StrValue "plain")
                                       (conj eq_refl Hne))))).
Defined.

(** [weather://{city}/current] against [weather://london/current] *)
Lemma matches_values_are_segments_witness :
  map fst [("city", "london")] = names Cases.weather
  /\ Forall (fun v => v <> "" /\ Str.mem "/" v = false)
            (map snd [("city", "london")]).
Proof.
  exact (matches_values_are_segments
           Cases.weather "weather://london/current"
           (d := [("city", "london")]) eq_refl eq_refl).
Defined.

Lemma matches_round_trip_witness :
  "weather://london/current" = render Cases.weather (map snd [("city", "london")])
  \/ "weather://london/current"
     = render Cases.weather (map snd [("city", "london")]) ++ String "010" "".
Proof.
  exact (matches_round_trip
           Cases.weather "weather://london/current"
           (d := [("city", "london")]) eq_refl eq_refl).
Defined.

Lemma london_is_a_segment :
  Forall (fun v => v <> "" /\ Str.mem "/" v = false) ["london"].
Proof. repeat constructor. discriminate. Defined.

Lemma matches_every_instance_witness :
  exists d,
    matches (template_of Cases.weather) (render Cases.weather ["london"])
    = Some (Some d).
Proof.
  exact (proj1 (matches_every_instance
                  Cases.weather (values := ["london"]) eq_refl eq_refl
                  london_is_a_segment)).
Defined.

Lemma matches_returns_the_values_witness :
  matches (template_of Cases.weather) (render Cases.weather ["london"])
  = Some (Some (combine (names Cases.weather) ["london"])).
Proof.
  exact (matches_returns_the_values
           Cases.weather (values := ["london"]) eq_refl eq_refl eq_refl
           london_is_a_segment).
Defined.

Lemma literal_template_matches_itself_witness :
  matches (template_of Cases.readme) "file://docs/readme" = Some (Some []).
Proof.
  apply (proj2 (literal_template_matches_itself
                  Cases.readme "file://docs/readme" eq_refl eq_refl)).
  left. reflexivity.
Defined.

Lemma template_text_compiles_witness :
  uri_pattern (template_of Cases.weather) = pattern_of Cases.weather.
Proof.
  exact (proj1 (template_text_compiles Cases.weather "" eq_refl)).
Defined.

Lemma create_error_redirect_starts_query_witness :
  create_error_redirect (mkUrl "https://app.example/cb#top") IsOtherException
  = "https://app.example/cb" ++ "?"
    ++ "error=server_error&error_description=An+unknown+error+occurred"
    ++ "#top".
Proof.
  exact (create_error_redirect_starts_query
           (mkUrl "https://app.example/cb#top") IsOtherException eq_refl).
Defined.
